(** * interactsh: correlation engine

    A shallow embedding of the identifier protocol ([pkg/server]), the
    interaction store ([pkg/storage]) and the HTTP gate of the server,
    together with the properties of the specification that were checked
    against them. *)

From Stdlib Require Import ZArith Ascii String Lia.
From stdpp Require Import gmap strings list fin_maps.

Local Open Scope Z_scope.

(** ** Go strings

    A Go [string] is an immutable sequence of bytes; [len] counts bytes.
    Bytes are [ascii] (eight bits), so a string is a [list ascii]. *)

Module GoString.

Abbreviation gostring := (list ascii).

(** A literal. *)
Definition lit (s : string) : gostring := list_ascii_of_string s.

(** The numeric value of a byte, and the conversion [byte(x)] of an
    integer, which keeps the low eight bits. *)
Definition bv (a : ascii) : Z := Z.of_N (N_of_ascii a).
Definition mkbyte (z : Z) : ascii := ascii_of_N (Z.to_N (z mod 256)).

Definition dot : ascii := "."%char.

(** [strings.Split(s, ".")]: the substrings between the separators; a
    string without separator, the empty string included, gives one part. *)
Fixpoint Split (s : gostring) : list gostring :=
  match s with
  | [] => [[]]
  | c :: s' =>
      if decide (c = dot) then [] :: Split s'
      else match Split s' with
           | p :: ps => (c :: p) :: ps
           | [] => [[c]]
           end
  end.

(** [strings.Join(parts, ".")]. *)
Fixpoint Join (parts : list gostring) : gostring :=
  match parts with
  | [] => []
  | [p] => p
  | p :: ps => p ++ dot :: Join ps
  end.

(** [s[:n]] panics ([None]) when [n] exceeds [len(s)]. *)
Definition slice_to (n : nat) (s : gostring) : option gostring :=
  if (n <=? length s)%nat then Some (take n s) else None.

End GoString.
Export GoString.

(** ** Runes

    The conversions [[]rune(s)] and [string(rns)] of the Go runtime
    ([decoderune], [encoderune]): UTF-8 decoding in which every byte that
    does not start a well-formed sequence becomes U+FFFD and is skipped
    alone, and UTF-8 encoding in which every invalid code point is written
    as U+FFFD. A rune is an [int32], here a [Z]. *)

Module Utf8.

Definition runeError : Z := 0xFFFD.
Definition runeSelf : Z := 0x80.
Definition maxRune : Z := 0x10FFFF.
Definition surrogateMin : Z := 0xD800.
Definition surrogateMax : Z := 0xDFFF.
Definition rune1Max : Z := 0x7F.
Definition rune2Max : Z := 0x7FF.
Definition rune3Max : Z := 0xFFFF.
Definition tx : Z := 0x80.
Definition t2 : Z := 0xC0.
Definition t3 : Z := 0xE0.
Definition t4 : Z := 0xF0.
Definition t5 : Z := 0xF8.
Definition maskx : Z := 0x3F.
Definition mask2 : Z := 0x1F.
Definition mask3 : Z := 0x0F.
Definition mask4 : Z := 0x07.
Definition locb : Z := 0x80.
Definition hicb : Z := 0xBF.

(** A continuation byte. *)
Definition cont (b : Z) : bool := (locb <=? b) && (b <=? hicb).

(** [decoderune]: the rune at the head of a non-empty string and the
    number of bytes it takes. *)
Definition decoderune (s : gostring) : Z * nat :=
  match s with
  | [] => (runeError, 1%nat)
  | c0 :: s1 =>
      let b0 := bv c0 in
      if b0 <? runeSelf then (b0, 1%nat)
      else if (t2 <=? b0) && (b0 <? t3) then
        match s1 with
        | c1 :: _ =>
            let b1 := bv c1 in
            let r := Z.lor (Z.shiftl (Z.land b0 mask2) 6) (Z.land b1 maskx) in
            if cont b1 && (rune1Max <? r) then (r, 2%nat)
            else (runeError, 1%nat)
        | _ => (runeError, 1%nat)
        end
      else if (t3 <=? b0) && (b0 <? t4) then
        match s1 with
        | c1 :: c2 :: _ =>
            let b1 := bv c1 in
            let b2 := bv c2 in
            let r := Z.lor (Z.lor (Z.shiftl (Z.land b0 mask3) 12)
                                  (Z.shiftl (Z.land b1 maskx) 6))
                           (Z.land b2 maskx) in
            if cont b1 && cont b2 && (rune2Max <? r)
               && negb ((surrogateMin <=? r) && (r <=? surrogateMax))
            then (r, 3%nat)
            else (runeError, 1%nat)
        | _ => (runeError, 1%nat)
        end
      else if (t4 <=? b0) && (b0 <? t5) then
        match s1 with
        | c1 :: c2 :: c3 :: _ =>
            let b1 := bv c1 in
            let b2 := bv c2 in
            let b3 := bv c3 in
            let r := Z.lor (Z.lor (Z.lor (Z.shiftl (Z.land b0 mask4) 18)
                                         (Z.shiftl (Z.land b1 maskx) 12))
                                  (Z.shiftl (Z.land b2 maskx) 6))
                           (Z.land b3 maskx) in
            if cont b1 && cont b2 && cont b3
               && (rune3Max <? r) && (r <=? maxRune)
            then (r, 4%nat)
            else (runeError, 1%nat)
        | _ => (runeError, 1%nat)
        end
      else (runeError, 1%nat)
  end.

(** [[]rune(s)]: the loop [for _, r := range s]. Every step consumes at
    least one byte, so [length s] steps are enough. *)
Fixpoint rangeRunes (fuel : nat) (s : gostring) : list Z :=
  match fuel with
  | O => []
  | S fuel' =>
      match s with
      | [] => []
      | _ => let '(r, n) := decoderune s in r :: rangeRunes fuel' (drop n s)
      end
  end.

Definition stringtoslicerune (s : gostring) : list Z :=
  rangeRunes (length s) s.

(** [encoderune]; [uint32(r)] is [r mod 2^32]. *)
Definition encoderune (r : Z) : gostring :=
  let i := r mod 2 ^ 32 in
  let three (r : Z) :=
    [mkbyte (Z.lor t3 (Z.shiftr r 12));
     mkbyte (Z.lor tx (Z.land (Z.shiftr r 6) maskx));
     mkbyte (Z.lor tx (Z.land r maskx))] in
  if i <=? rune1Max then [mkbyte r]
  else if i <=? rune2Max then
    [mkbyte (Z.lor t2 (Z.shiftr r 6)); mkbyte (Z.lor tx (Z.land r maskx))]
  else if (maxRune <? i) || ((surrogateMin <=? i) && (i <=? surrogateMax))
  then three runeError
  else if i <=? rune3Max then three r
  else
    [mkbyte (Z.lor t4 (Z.shiftr r 18));
     mkbyte (Z.lor tx (Z.land (Z.shiftr r 12) maskx));
     mkbyte (Z.lor tx (Z.land (Z.shiftr r 6) maskx));
     mkbyte (Z.lor tx (Z.land r maskx))].

(** [string(rns)]. *)
Definition slicerunetostring (rns : list Z) : gostring :=
  concat (map encoderune rns).

(** The code points UTF-8 can carry, and the bytes that stand for
    themselves. *)
Definition validRune (r : Z) : Prop :=
  0 <= r < surrogateMin \/ surrogateMax < r <= maxRune.

Definition isASCII (c : ascii) : Prop := bv c < runeSelf.

End Utf8.

(** ** Identifier protocol ([pkg/server]) *)

Module Server.

(** The width of an embedded identifier, and of its correlation prefix. *)
Definition idWidth : nat := 33.
Definition correlationWidth : nat := 20.

(** *** [URLReflection] *)

(** The scan [for _, part := range parts]: [randomID] is overwritten by
    every part of the width, the loop never leaves early. *)
Fixpoint scanRandomID (parts : list gostring) (randomID : gostring) : gostring :=
  match parts with
  | [] => randomID
  | part :: rest =>
      scanRandomID rest (if (length part =? idWidth)%nat then part else randomID)
  end.

(** The swap loop [for i, j := 0, len(rns)-1; i < j; i, j = i+1, j-1].
    An index out of range panics ([None]). Each turn brings [i] and [j]
    closer by two, so [length rns] turns are enough. *)
Definition index (rns : list Z) (i : Z) : option Z :=
  if (0 <=? i) && (i <? Z.of_nat (length rns)) then rns !! Z.to_nat i else None.

Definition assign (rns : list Z) (i : Z) (x : Z) : option (list Z) :=
  if (0 <=? i) && (i <? Z.of_nat (length rns)) then Some (<[Z.to_nat i := x]> rns)
  else None.

Fixpoint swapLoop (fuel : nat) (rns : list Z) (i j : Z) : option (list Z) :=
  match fuel with
  | O => Some rns
  | S fuel' =>
      if i <? j then
        rj ← index rns j;
        ri ← index rns i;
        rns1 ← assign rns i rj;
        rns2 ← assign rns1 j ri;
        swapLoop fuel' rns2 (i + 1) (j - 1)
      else Some rns
  end.

(** [URLReflection]; [None] is a panic. *)
Definition URLReflection (URL : gostring) : option gostring :=
  let parts := Split URL in
  let randomID := scanRandomID parts [] in
  if decide (randomID = []) then Some []
  else
    let rns := Utf8.stringtoslicerune randomID in
    rns' ← swapLoop (length rns) rns 0 (Z.of_nat (length rns) - 1);
    Some (Utf8.slicerunetostring rns').

(** *** Identifier extraction, in [HTTPServer.logger] *)

(** The loop [for i, part := range parts] over the state
    [(uniqueID, fullID)]; [parts] is the whole slice, [i] the index of the
    head of [todo]. The slice [parts[:i+1]] is taken under the guard
    [i+1 <= len(parts)]. *)
Fixpoint scanParts (parts todo : list gostring) (i : nat)
         (st : gostring * gostring) : gostring * gostring :=
  match todo with
  | [] => st
  | part :: rest =>
      scanParts parts rest (S i)
        (if (length part =? idWidth)%nat then
           (part, if (i + 1 <=? length parts)%nat then Join (take (i + 1) parts)
                  else part)
         else st)
  end.

(** What the logger hands to the store. *)
Record Extracted := {
  correlationID : gostring;
  uniqueID : gostring;
  fullID : gostring;
  found : bool
}.

(** The extraction: the scan, then [uniqueID[:20]] under the test
    [uniqueID != ""]. [None] is a panic of the slice expression. *)
Definition ExtractIdentifier (host : gostring) : option Extracted :=
  let parts := Split host in
  let '(uid, fid) := scanParts parts parts 0 ([], []) in
  if decide (uid = []) then
    Some {| correlationID := []; uniqueID := uid; fullID := fid; found := false |}
  else
    cid ← slice_to correlationWidth uid;
    Some {| correlationID := cid; uniqueID := uid; fullID := fid; found := true |}.

(** *** Vocabulary of the statements *)

Definition hasWidth (p : gostring) : Prop := length p = idWidth.
Definition notWidth (p : gostring) : Prop := length p <> idWidth.

(** What extraction gives when the label [l], with the labels [pre]
    before it, is taken as the identifier; and what it gives when no label
    is. *)
Definition extractedAt (pre : list gostring) (l : gostring) : Extracted :=
  {| correlationID := take correlationWidth l; uniqueID := l;
     fullID := Join (pre ++ [l]); found := true |}.

Definition notFound : Extracted :=
  {| correlationID := []; uniqueID := []; fullID := []; found := false |}.

(** The reading of the scan in which the earliest label of the width
    wins, on a host that has a later one too. *)
Definition firstMatchWins (host : gostring) : Prop :=
  forall pre l post,
    Split host = pre ++ l :: post ->
    Forall notWidth pre -> hasWidth l -> Exists hasWidth post ->
    ExtractIdentifier host = Some (extractedAt pre l).

End Server.

(** ** Interaction codec

    The store compresses with [zlib.Writer] and decompresses with
    [zlib.Reader] of klauspost/compress, a library outside the repository.
    It enters as an interface: what a writer leaves in its buffer, whether a
    reader accepts the header of a stream, and what [io.Copy] delivers from
    it. The laws a zlib codec obeys are stated apart in [ZlibLaws]; what is
    proved below of the store needs them only where it says so. *)

Module Codec.

(** The check of the two header bytes (CMF, FLG) a zlib reader makes
    before anything else: method 8, window at most 7, and the pair a
    multiple of 31. A stream shorter than two bytes is refused. *)
Definition zlibDeflate : Z := 8.
Definition zlibMaxWindow : Z := 7.

Definition zlibHeader (s : gostring) : bool :=
  match s with
  | cmf :: flg :: _ =>
      (Z.land (bv cmf) 0x0f =? zlibDeflate)
      && (Z.shiftr (bv cmf) 4 <=? zlibMaxWindow)
      && ((Z.lor (Z.shiftl (bv cmf) 8) (bv flg)) mod 31 =? 0)
  | _ => false
  end.

Class Zlib := {
  (** [gz.Reset(buffer); gz.Write(data); gz.Close()]: the content of the
      buffer, or the error of [Write]. *)
  zlibWrite : gostring -> gostring + gostring;
  (** [zlib.NewReader(r)] and [reader.Reset(r, nil)], which is the same
      call on a fresh reader: [true] when no error is returned. *)
  readerReset : gostring -> bool;
  (** [io.Copy(buf, reader)]: the bytes written to [buf], and whether an
      error came back. *)
  ioCopy : gostring -> gostring * bool
}.

Class ZlibLaws (codec : Zlib) : Prop := {
  (** What is written can be read back. *)
  read_written : forall data blob,
    zlibWrite data = inl blob -> readerReset blob = true /\ ioCopy blob = (data, false);
  (** A reader accepts only a stream that starts with a zlib header. *)
  reset_header : forall s, readerReset s = true -> zlibHeader s = true
}.

(** *** An instance: zlib with stored blocks

    A valid zlib stream needs no compression at all: after the header
    come deflate blocks of type 0, each carrying its bytes as they are,
    and the Adler-32 sum of the data closes the stream. The writer below
    puts every byte in a block of its own; the reader takes stored blocks
    of any length. *)

Definition adlerBase : Z := 65521.

Definition adler32 (data : gostring) : Z :=
  let '(a, b) :=
    fold_left (fun '(a, b) c =>
                 let a' := (a + bv c) mod adlerBase in (a', (b + a') mod adlerBase))
              data (1, 0) in
  Z.lor (Z.shiftl b 16) a.

Definition be32 (v : Z) : gostring :=
  [mkbyte (Z.shiftr v 24); mkbyte (Z.shiftr v 16); mkbyte (Z.shiftr v 8); mkbyte v].

Fixpoint storedBlocks (data : gostring) : gostring :=
  match data with
  | [] => [mkbyte 1; mkbyte 0; mkbyte 0; mkbyte 255; mkbyte 255]
  | c :: data' =>
      [mkbyte 0; mkbyte 1; mkbyte 0; mkbyte 254; mkbyte 255; c] ++ storedBlocks data'
  end.

Definition storedWrite (data : gostring) : gostring :=
  [mkbyte 0x78; mkbyte 0x01] ++ storedBlocks data ++ be32 (adler32 data).

(** The blocks of a stream: the data and what follows the final block.
    Every block takes at least five bytes, so [fuel] is the length of the
    stream. *)
Fixpoint storedRead (fuel : nat) (s : gostring) : option (gostring * gostring) :=
  match fuel with
  | O => None
  | S fuel' =>
      match s with
      | h :: l0 :: l1 :: n0 :: n1 :: rest =>
          let len := Z.lor (bv l0) (Z.shiftl (bv l1) 8) in
          let nlen := Z.lor (bv n0) (Z.shiftl (bv n1) 8) in
          if (Z.land (Z.shiftr (bv h) 1) 3 =? 0)
             && (nlen =? Z.lxor len 0xFFFF)
             && (len <=? Z.of_nat (length rest))
          then
            let data := take (Z.to_nat len) rest in
            let rest' := drop (Z.to_nat len) rest in
            if Z.testbit (bv h) 0 then Some (data, rest')
            else '(more, tail) ← storedRead fuel' rest'; Some (data ++ more, tail)
          else None
      | _ => None
      end
  end.

Definition storedCopy (s : gostring) : gostring * bool :=
  match storedRead (length s) (drop 2 s) with
  | Some (data, tail) =>
      if decide (tail = be32 (adler32 data)) then (data, false) else (data, true)
  | None => ([], true)
  end.

Definition storedZlib : Zlib :=
  {| zlibWrite := fun data => inl (storedWrite data);
     readerReset := zlibHeader;
     ioCopy := storedCopy |}.

End Codec.

(** ** Correlation store ([pkg/storage]) *)

Module Storage.
Import Codec.

(** The outcome of a call: it returns, it panics on a nil pointer, or it
    waits for ever on a mutex that is held. *)
Inductive res (A : Type) : Type :=
| Val (a : A)
| Panic
| Blocked.
Arguments Val {A} a.
Arguments Panic {A}.
Arguments Blocked {A}.

Global Instance res_ret : MRet res := fun A a => Val a.
Global Instance res_bind : MBind res := fun A B k m =>
  match m with
  | Val a => k a
  | Panic => Panic
  | Blocked => Blocked
  end.

(** A Go [error]: [nil] or a message. *)
Abbreviation error := (option gostring).
Definition errors_New (msg : string) : error := Some (lit msg).

(** [sync.Mutex]. *)
Inductive Mutex := Unlocked | Locked.

(** [CorrelationData]. The field [dataMutex] is a pointer: [None] is nil. *)
Record CorrelationData := {
  Data : list gostring;
  dataMutex : option Mutex;
  token : gostring
}.

Definition withData (c : CorrelationData) (d : list gostring) : CorrelationData :=
  {| Data := d; dataMutex := dataMutex c; token := token c |}.

(** [c.dataMutex.Lock()] and [c.dataMutex.Unlock()]. Unlocking a free
    mutex is a fatal error of the runtime. *)
Definition Lock (c : CorrelationData) : res CorrelationData :=
  match dataMutex c with
  | None => Panic
  | Some Locked => Blocked
  | Some Unlocked => Val {| Data := Data c; dataMutex := Some Locked; token := token c |}
  end.

Definition Unlock (c : CorrelationData) : res CorrelationData :=
  match dataMutex c with
  | None => Panic
  | Some Unlocked => Panic
  | Some Locked => Val {| Data := Data c; dataMutex := Some Unlocked; token := token c |}
  end.

(** The mutex of a record is there and nobody holds it. *)
Definition free (c : CorrelationData) : Prop := dataMutex c = Some Unlocked.

(** [Storage]. The ccache cache is a finite map from keys to the records
    they point to, with its counter of dropped items: [Get] is a lookup,
    [Set] an insertion, [Delete] a deletion. Every value ever set is a
    [*CorrelationData], so the type assertions of the source succeed.
    Capacity eviction, which starts beyond a million items, is left out. *)
Record Storage := {
  cache : gmap gostring CorrelationData;
  dropped : nat;
  evictionTTL : Z
}.

Definition withCache (s : Storage) (m : gmap gostring CorrelationData) : Storage :=
  {| cache := m; dropped := dropped s; evictionTTL := evictionTTL s |}.

Definition cache_Get (s : Storage) (k : gostring) : option CorrelationData := cache s !! k.
Definition cache_Set (s : Storage) (k : gostring) (v : CorrelationData) : Storage :=
  withCache s (<[k := v]> (cache s)).
Definition cache_Delete (s : Storage) (k : gostring) : Storage :=
  withCache s (delete k (cache s)).

Definition New (ttl : Z) : Storage :=
  {| cache := ∅; dropped := 0; evictionTTL := ttl |}.

Record CacheMetrics := { Sessions : nat; Dropped : nat }.

(** [GetCacheMetrics]; [GetDropped] reads the counter and clears it. *)
Definition GetCacheMetrics (s : Storage) : Storage * CacheMetrics :=
  ({| cache := cache s; dropped := 0; evictionTTL := evictionTTL s |},
   {| Sessions := size (cache s); Dropped := dropped s |}).

Section WithZlib.
Context `{Zlib}.

(** The loop of [CorrelationData.GetInteractions] over the swapped-out
    log: [reader] tells whether the reader exists already, [buf] is the
    builder, [results] the slice made with [len(data)] empty strings. *)
Fixpoint inflateLoop (items : list gostring) (i : nat) (reader : bool)
         (buf : gostring) (results : list gostring) : list gostring :=
  match items with
  | [] => results
  | item :: rest =>
      if readerReset item then
        let '(written, failed) := ioCopy item in
        let buf' := buf ++ written in
        if failed then inflateLoop rest (S i) true [] results
        else inflateLoop rest (S i) true [] (<[i := buf']> results)
      else inflateLoop rest (S i) reader buf results
  end.

(** One blob on its own: its content, or the empty string when the
    reader refuses it or the copy fails. *)
Definition inflateOne (item : gostring) : gostring :=
  if readerReset item then
    let '(written, failed) := ioCopy item in
    if failed then [] else written
  else [].

(** Lines 60 to 91: the decompression of a drained log. *)
Definition decompressAll (data : list gostring) : list gostring :=
  if (length data =? 0)%nat then []
  else inflateLoop data 0 false [] (replicate (length data) []).

(** [CorrelationData.GetInteractions]. *)
Definition CorrelationData_GetInteractions (c : CorrelationData)
  : res (CorrelationData * list gostring) :=
  c1 ← Lock c;
  let data := Data c1 in
  c2 ← Unlock (withData c1 []);
  mret (c2, decompressAll data).

(** [SetIDPublicKey]: the record is made without a mutex. *)
Definition SetIDPublicKey (s : Storage) (sessionID tok : gostring)
  : res (Storage * error) :=
  match cache_Get s sessionID with
  | Some _ => mret (s, errors_New "session-id provided is invalid")
  | None =>
      let data := {| Data := []; dataMutex := None; token := tok |} in
      mret (cache_Set s sessionID data, None)
  end.

(** [SetID]. *)
Definition SetID (s : Storage) (ID : gostring) : res (Storage * error) :=
  let data := {| Data := []; dataMutex := Some Unlocked; token := [] |} in
  mret (cache_Set s ID data, None).

(** [AddInteraction]: the bytes are appended as they come. *)
Definition AddInteraction (s : Storage) (sessionID data : gostring)
  : res (Storage * error) :=
  match cache_Get s sessionID with
  | None => mret (s, errors_New "could not get session-id from cache")
  | Some value =>
      v1 ← Lock value;
      v2 ← Unlock (withData v1 (Data v1 ++ [data]));
      mret (cache_Set s sessionID v2, None)
  end.

(** [AddInteractionWithId]: the bytes are compressed first. *)
Definition AddInteractionWithId (s : Storage) (id data : gostring)
  : res (Storage * error) :=
  match cache_Get s id with
  | None => mret (s, errors_New "could not get session-id from cache")
  | Some value =>
      match zlibWrite data with
      | inr err => mret (s, Some err)
      | inl blob =>
          v1 ← Lock value;
          v2 ← Unlock (withData v1 (Data v1 ++ [blob]));
          mret (cache_Set s id v2, None)
      end
  end.

(** [Storage.GetInteractions]; the secret is not looked at. *)
Definition GetInteractions (s : Storage) (correlationID secret : gostring)
  : res (Storage * (list gostring * gostring * error)) :=
  match cache_Get s correlationID with
  | None => mret (s, ([], [], errors_New "could not get correlation-id from cache"))
  | Some value =>
      '(value', data) ← CorrelationData_GetInteractions value;
      mret (cache_Set s correlationID value', (data, [], None))
  end.

(** [GetInteractionsWithId]. *)
Definition GetInteractionsWithId (s : Storage) (id : gostring)
  : res (Storage * (list gostring * error)) :=
  match cache_Get s id with
  | None => mret (s, ([], errors_New "could not get id from cache"))
  | Some value =>
      '(value', data) ← CorrelationData_GetInteractions value;
      mret (cache_Set s id value', (data, None))
  end.

(** [RemoveID]; the token is not looked at. *)
Definition RemoveID (s : Storage) (sessionID tok : gostring)
  : res (Storage * error) :=
  match cache_Get s sessionID with
  | None => mret (s, errors_New "could not get session-id from cache")
  | Some value =>
      v1 ← Lock value;
      v2 ← Unlock (withData v1 []);
      mret (cache_Delete (cache_Set s sessionID v2) sessionID, None)
  end.

End WithZlib.

End Storage.

(** ** HTTP boundary of the server *)

Module HTTP.
Import Codec Storage.

(** [Options]; the store it points to is the state the handlers run in. *)
Record Options := {
  Domain : gostring;
  Auth : bool;
  Token : gostring;
  RootTLD : bool;
  OriginURL : gostring
}.

Record HTTPServer := { options : Options; domain : gostring }.

(** What the handlers read of a request. [Authorization] is
    [req.Header.Get("Authorization")], [QueryID] and [QuerySecret] are
    [req.URL.Query().Get] of [id] and [secret]: empty when absent. *)
Record Request := {
  Method : gostring;
  Path : gostring;
  Host : gostring;
  Authorization : gostring;
  QueryID : gostring;
  QuerySecret : gostring;
  Body : gostring
}.

(** An [http.ResponseWriter]: the header map, the status once it is
    written, the body. *)
Record ResponseWriter := {
  header : gmap gostring gostring;
  status : option Z;
  body : gostring
}.

Definition newWriter : ResponseWriter := {| header := ∅; status := None; body := [] |}.

Definition StatusOK : Z := 200.
Definition StatusNoContent : Z := 204.
Definition StatusBadRequest : Z := 400.
Definition StatusUnauthorized : Z := 401.
Definition MethodOptions : gostring := lit "OPTIONS".

(** [w.Header().Set(k, v)] on the header map of the writer. *)
Definition Header_Set (w : ResponseWriter) (k : string) (v : gostring) : ResponseWriter :=
  {| header := <[lit k := v]> (header w); status := status w; body := body w |}.

(** [w.WriteHeader(code)]: the first call counts. *)
Definition WriteHeader (w : ResponseWriter) (code : Z) : ResponseWriter :=
  match status w with
  | None => {| header := header w; status := Some code; body := body w |}
  | Some _ => w
  end.

(** [w.Write(data)]: it sends status 200 when none was written. *)
Definition Write (w : ResponseWriter) (data : gostring) : ResponseWriter :=
  let w' := WriteHeader w StatusOK in
  {| header := header w'; status := status w'; body := body w' ++ data |}.

(** The values the handlers give to the JSON encoder. *)
Inductive JsonValue :=
| JMap (key value : gostring)
| JPoll (data extra : list gostring) (aesKey : gostring) (tlddata : list gostring)
| JMetrics (m : CacheMetrics).

Definition state : Type := Storage * ResponseWriter.
Definition Handler : Type := Request -> state -> res state.

Section Handlers.
Context `{Zlib}.
(** jsoniter, outside the repository: the bytes of a value, and the
    [(Token, SessionID)] of a request body or the decoding error. *)
Variable jsonEncode : JsonValue -> gostring.
Variable jsonDecode : gostring -> gostring + gostring * gostring.
(** The handler of [/], behind the logger. *)
Variable rootHandler : Handler.
Variable h : HTTPServer.

Definition jsonBody (w : ResponseWriter) (key : string) (value : gostring) (code : Z)
  : ResponseWriter :=
  let w := Header_Set w "Content-Type" (lit "application/json; charset=utf-8") in
  let w := Header_Set w "X-Content-Type-Options" (lit "nosniff") in
  let w := WriteHeader w code in
  Write w (jsonEncode (JMap (lit key) value)).

Definition jsonError (w : ResponseWriter) (err : gostring) (code : Z) : ResponseWriter :=
  jsonBody w "error" err code.

Definition jsonMsg (w : ResponseWriter) (msg : gostring) (code : Z) : ResponseWriter :=
  jsonBody w "message" msg code.

Definition registerHandler : Handler := fun req '(s, w) =>
  match jsonDecode (Body req) with
  | inl err => mret (s, jsonError w (lit "could not decode json body: " ++ err) StatusBadRequest)
  | inr (tok, sid) =>
      '(s', err) ← SetIDPublicKey s sid tok;
      match err with
      | Some e =>
          mret (s', jsonError w (lit "could not set id and public key: " ++ e) StatusBadRequest)
      | None => mret (s', jsonMsg w (lit "registration successful") StatusOK)
      end
  end.

Definition deregisterHandler : Handler := fun req '(s, w) =>
  match jsonDecode (Body req) with
  | inl err => mret (s, jsonError w (lit "could not decode json body: " ++ err) StatusBadRequest)
  | inr (tok, sid) =>
      '(s', err) ← RemoveID s sid tok;
      match err with
      | Some e => mret (s', jsonError w (lit "could not remove id: " ++ e) StatusBadRequest)
      | None => mret (s', jsonMsg w (lit "deregistration successful") StatusOK)
      end
  end.

Definition pollHandler : Handler := fun req '(s, w) =>
  let ID := QueryID req in
  if decide (ID = []) then
    mret (s, jsonError w (lit "no id specified for poll") StatusBadRequest)
  else
    let secret := QuerySecret req in
    if decide (secret = []) then
      mret (s, jsonError w (lit "no secret specified for poll") StatusBadRequest)
    else
      '(s1, (data, aesKey, err)) ← GetInteractions s ID secret;
      match err with
      | Some e =>
          mret (s1, jsonError w (lit "could not get interactions: " ++ e) StatusBadRequest)
      | None =>
          '(s2, (extradata, _)) ← GetInteractionsWithId s1 (Token (options h));
          '(s3, tlddata) ←
            (if RootTLD (options h) then
               '(s3, (tlddata, _)) ← GetInteractionsWithId s2 (Domain (options h));
               mret (s3, tlddata)
             else mret (s2, []));
          mret (s3, Write w (jsonEncode (JPoll data extradata aesKey tlddata)))
      end.

Definition metricsHandler : Handler := fun req '(s, w) =>
  let '(s', metrics) := GetCacheMetrics s in
  let w := Header_Set w "Content-Type" (lit "application/json; charset=utf-8") in
  let w := Header_Set w "X-Content-Type-Options" (lit "nosniff") in
  mret (s', Write w (jsonEncode (JMetrics metrics))).

Definition setCORS (w : ResponseWriter) : ResponseWriter :=
  let w := Header_Set w "Access-Control-Allow-Origin" (OriginURL (options h)) in
  let w := Header_Set w "Access-Control-Allow-Credentials" (lit "true") in
  Header_Set w "Access-Control-Allow-Headers" (lit "Content-Type, Authorization").

(** [corsMiddleware]: a preflight request is answered here. *)
Definition corsMiddleware (next : Handler) : Handler := fun req '(s, w) =>
  if decide (Method req = MethodOptions) then
    mret (s, WriteHeader (setCORS w) StatusNoContent)
  else next req (s, setCORS w).

(** [checkToken]. *)
Definition checkToken (req : Request) : bool :=
  negb (Auth (options h))
  || (Auth (options h) && bool_decide (Token (options h) = Authorization req)).

(** [authMiddleware]. *)
Definition authMiddleware (next : Handler) : Handler := fun req '(s, w) =>
  if negb (checkToken req) then mret (s, WriteHeader w StatusUnauthorized)
  else next req (s, w).

(** The routes of [NewHTTPServer] other than [/]: a pattern without a
    final slash matches its path alone. *)
Definition route (path : gostring) : option Handler :=
  if decide (path = lit "/register") then Some registerHandler
  else if decide (path = lit "/deregister") then Some deregisterHandler
  else if decide (path = lit "/poll") then Some pollHandler
  else if decide (path = lit "/metrics") then Some metricsHandler
  else None.

(** The mux: every route but [/] stands behind the CORS middleware and,
    behind it, the gate. *)
Definition router : Handler := fun req st =>
  match route (Path req) with
  | Some handler => corsMiddleware (authMiddleware handler) req st
  | None => rootHandler req st
  end.

(** A request served on a fresh writer. *)
Definition serve (req : Request) (s : Storage) : res state :=
  router req (s, newWriter).

(** The four routes behind the gate. *)
Definition gated (path : gostring) : Prop :=
  path = lit "/register" \/ path = lit "/deregister"
  \/ path = lit "/poll" \/ path = lit "/metrics".

(** The gate as a rule without exception: a request with a wrong
    token is answered 401 and leaves the store as it was. *)
Definition alwaysUnauthorized (req : Request) (s : Storage) : Prop :=
  gated (Path req) -> Auth (options h) = true ->
  Token (options h) <> Authorization req ->
  exists w, serve req s = Val (s, w) /\ status w = Some StatusUnauthorized.

End Handlers.

End HTTP.

(** ** Concrete hosts, stores and requests used below *)

Module Fixtures.
Import Server Codec Storage HTTP.

Definition A33 : gostring := replicate 33 "A"%char.
Definition B33 : gostring := replicate 33 "B"%char.

Definition twoLabels : gostring := A33 ++ lit "." ++ B33 ++ lit ".example.com".

Definition oneLabel : gostring := lit "x." ++ A33 ++ lit ".example.com".
Definition noLabel : gostring := lit "www.example.com".

Definition alphabet : gostring := lit "abcdefghijklmnopqrstuvwxyz0123456".
Definition reflected : gostring := alphabet ++ lit ".example.com".

(** What [SetIDPublicKey] leaves at a fresh key. *)
Definition registered (tok : gostring) : CorrelationData :=
  {| Data := []; dataMutex := None; token := tok |}.

Definition sid : gostring := lit "c8qk2v3q1g5s7d9f0a1b".
Definition bucket : gostring := lit "operator-token".
Definition quote : ascii := "034"%char.
Definition payload : gostring :=
  lit "{" ++ quote :: lit "protocol" ++ quote :: lit ":" ++ quote :: lit "http"
    ++ quote :: lit "}".

(** A store with one record made by [SetID], as the buckets are. *)
Definition bucketRecord : CorrelationData :=
  {| Data := []; dataMutex := Some Unlocked; token := [] |}.

Definition withBucket : Storage := cache_Set (New 0) bucket bucketRecord.

Definition corrupt : gostring := lit "not a zlib stream".
Definition batch : list gostring :=
  [storedWrite (lit "first"); corrupt; storedWrite (lit "third")].

(** A server that asks for the token [s3cret], and a preflight request
    to /register that does not carry it. *)
Definition guarded : HTTPServer :=
  {| options := {| Domain := lit "example.com"; Auth := true; Token := lit "s3cret";
                   RootTLD := false; OriginURL := lit "*" |};
     domain := lit "example.com" |}.

Definition preflight : Request :=
  {| Method := lit "OPTIONS"; Path := lit "/register"; Host := lit "example.com";
     Authorization := []; QueryID := []; QuerySecret := []; Body := [] |}.

(** A request to /register with a guessed token. *)
Definition guessing : Request :=
  {| Method := lit "POST"; Path := lit "/register"; Host := lit "example.com";
     Authorization := lit "guess"; QueryID := []; QuerySecret := []; Body := [] |}.

Definition noEncode (v : JsonValue) : gostring := [].
Definition noDecode (body : gostring) : gostring + gostring * gostring := inl [].
Definition noRoot : Handler := fun _ st => Val st.

End Fixtures.

(** ** The rest of the store *)

Module Cache.
Import Codec Storage.

(** [GetCacheItem]: the record itself, or an error. *)
Definition GetCacheItem (s : Storage) (tok : gostring)
  : res (Storage * (option CorrelationData * error)) :=
  match cache_Get s tok with
  | None => mret (s, (None, errors_New "could not get token from cache"))
  | Some value => mret (s, (Some value, None))
  end.

(** No record of the store is left locked. *)
Definition unlocked (s : Storage) : Prop :=
  forall k c, cache s !! k = Some c -> dataMutex c <> Some Locked.

(** A call does not wait for ever, and when it returns no record of the
    store is left locked. *)
Definition releases {A} (r : res (Storage * A)) : Prop :=
  r <> Blocked /\ forall s' a, r = Val (s', a) -> unlocked s'.

Section WithZlib.
Context `{Zlib}.

(** What a drain of the key [id] gives: the log of its record, each blob
    inflated on its own, and nothing when there is no record. *)
Definition logOf (s : Storage) (id : gostring) : list gostring :=
  match cache s !! id with
  | Some c => map inflateOne (Data c)
  | None => []
  end.

(** The store once the log at [id] is drained. *)
Definition emptied (s : Storage) (id : gostring) : Storage :=
  match cache s !! id with
  | Some c => cache_Set s id (withData c [])
  | None => s
  end.

(** [AddInteractionWithId] called once for each payload, in order; the
    caller looks at no error, as the logger does. *)
Fixpoint appendEach (s : Storage) (id : gostring) (payloads : list gostring)
  : res Storage :=
  match payloads with
  | [] => mret s
  | data :: rest =>
      '(s', _) ← AddInteractionWithId s id data;
      appendEach s' id rest
  end.

End WithZlib.

End Cache.

(** ** Vocabulary of the endpoints *)

Module Endpoint.
Import Codec Storage HTTP.

(** The answer [jsonBody] gives on a writer that has sent nothing yet:
    the status, the encoded pair, the content type. *)
Definition answered (jsonEncode : JsonValue -> gostring) (w : ResponseWriter)
           (code : Z) (key : string) (value : gostring) : Prop :=
  status w = Some code
  /\ body w = jsonEncode (JMap (lit key) value)
  /\ header w !! lit "Content-Type" = Some (lit "application/json; charset=utf-8").

(** The three headers of [corsMiddleware]. *)
Definition hasCORS (h : HTTPServer) (w : ResponseWriter) : Prop :=
  header w !! lit "Access-Control-Allow-Origin" = Some (OriginURL (options h))
  /\ header w !! lit "Access-Control-Allow-Credentials" = Some (lit "true")
  /\ header w !! lit "Access-Control-Allow-Headers"
     = Some (lit "Content-Type, Authorization").

End Endpoint.

(** ** The route [/]: the default handler behind the logger *)

Module Root.
Import Server Codec Storage HTTP.

(** [strings.HasSuffix] and [strings.TrimSuffix]. *)
Definition HasSuffix (s suffix : gostring) : bool :=
  (length suffix <=? length s)%nat
  && bool_decide (drop (length s - length suffix) s = suffix).

Definition TrimSuffix (s suffix : gostring) : gostring :=
  if HasSuffix s suffix then take (length s - length suffix) s else s.

(** The server value [NewHTTPServer] builds. *)
Definition NewHTTPServer (opts : Options) : HTTPServer :=
  {| options := opts; domain := TrimSuffix (Domain opts) (lit ".") |}.

Definition newline : ascii := "010"%char.
Definition dquote : ascii := "034"%char.

(** The constant [banner], before and after its verb. *)
Definition bannerHead : gostring := lit "<h1> Interactsh Server </h1>

<a href='https://github.com/projectdiscovery/interactsh'>Interactsh</a> is an <b>open-source solution</b> for out-of-band data extraction. It is a tool designed to detect bugs that cause external interactions. These bugs include, Blind SQLi, Blind CMDi, SSRF, etc. <br><br>

If you find communications or exchanges with the <b>".
Definition bannerTail : gostring := lit "</b> server in your logs, it is possible that someone has been testing your applications.<br><br>

You should review the time when these interactions were initiated to identify the person responsible for this testing.
".

(** The interaction the logger encodes: the fields its two composite
    literals fill in. *)
Record Interaction := {
  Protocol : gostring;
  UniqueID : gostring;
  FullId : gostring;
  RawRequest : gostring;
  RawResponse : gostring;
  RemoteAddress : gostring;
  Timestamp : Z
}.

Section RootHandlers.
Context `{Zlib}.
(** From outside the repository: [strings.EqualFold]; the dumps of
    [httputil] of a request and of what a recorder holds, each taken once
    for a request; the host of [net.SplitHostPort(r.RemoteAddr)]; the two
    readings of [time.Now]; the bytes jsoniter encodes an interaction to,
    or its error. *)
Variable EqualFold : gostring -> gostring -> bool.
Variable dumpRequest : Request -> gostring.
Variable dumpResponse : ResponseWriter -> gostring.
Variable remoteHost : Request -> gostring.
Variable rootTime idTime : Z.
Variable encodeInteraction : Interaction -> gostring + gostring.
Variable h : HTTPServer.

(** [defaultHandler]; every [fmt.Fprintf] is one [Write] of the format
    with its [%s] filled in. *)
Definition defaultHandler : Handler := fun req '(s, w) =>
  match URLReflection (Host req) with
  | None => Panic
  | Some reflection =>
      let w := Header_Set w "Server" (domain h) in
      if bool_decide (Path req = lit "/") && bool_decide (reflection = []) then
        mret (s, Write w (bannerHead ++ domain h ++ bannerTail))
      else if EqualFold (Path req) (lit "/robots.txt") then
        mret (s, Write w (lit "User-agent: *" ++ newline :: lit "Disallow: / # "
                            ++ reflection))
      else if HasSuffix (Path req) (lit ".json") then
        let w := Write w (lit "{" ++ dquote :: lit "data" ++ dquote :: lit ":"
                            ++ dquote :: reflection ++ dquote :: lit "}") in
        mret (s, Header_Set w "Content-Type" (lit "application/json"))
      else if HasSuffix (Path req) (lit ".xml") then
        let w := Write w (lit "<data>" ++ reflection ++ lit "</data>") in
        mret (s, Header_Set w "Content-Type" (lit "application/xml"))
      else
        mret (s, Write w (lit "<html><head></head><body>" ++ reflection
                            ++ lit "</body></html>"))
  end.

(** [rec.Result().StatusCode] of a recorder: 200 when no status was
    written. *)
Definition recordedStatus (rec : ResponseWriter) : Z := default StatusOK (status rec).

(** The copy [for k, v := range rec.Header() { w.Header()[k] = v }]. *)
Definition copyHeader (rec w : ResponseWriter) : ResponseWriter :=
  {| header := header rec ∪ header w; status := status w; body := body w |}.

(** [logger]: the handler runs on a recorder, what it recorded is sent,
    and then the request is stored: under the domain when root-TLD capture
    is on and the host ends with the domain, and under the correlation id
    when the host carries an identifier. An error of the encoder or of the
    store is logged and nothing more. The recorder is a writer as the
    handlers see it: its header map holds what the handler set, not the
    Content-Type net/http detects when none is set. *)
Definition logger (handler : Handler) : Handler := fun req '(s, w) =>
  let reqString := dumpRequest req in
  '(s, rec) ← handler req (s, newWriter);
  let resoString := dumpResponse rec in
  let w := copyHeader rec w in
  let w := WriteHeader w (recordedStatus rec) in
  let w := Write w (body rec) in
  s ← (if RootTLD (options h) && HasSuffix (Host req) (domain h) then
         let interaction :=
           {| Protocol := lit "http"; UniqueID := Host req; FullId := Host req;
              RawRequest := reqString; RawResponse := resoString;
              RemoteAddress := remoteHost req; Timestamp := rootTime |} in
         match encodeInteraction interaction with
         | inr _ => mret s
         | inl bytes => '(s', _) ← AddInteractionWithId s (domain h) bytes; mret s'
         end
       else mret s);
  match ExtractIdentifier (Host req) with
  | None => Panic
  | Some e =>
      if found e then
        let interaction :=
          {| Protocol := lit "http"; UniqueID := uniqueID e; FullId := fullID e;
             RawRequest := reqString; RawResponse := resoString;
             RemoteAddress := remoteHost req; Timestamp := idTime |} in
        match encodeInteraction interaction with
        | inr _ => mret (s, w)
        | inl bytes => '(s', _) ← AddInteraction s (correlationID e) bytes; mret (s', w)
        end
      else mret (s, w)
  end.

Variable jsonEncode : JsonValue -> gostring.
Variable jsonDecode : gostring -> gostring + gostring * gostring.

(** The mux of [NewHTTPServer] as a whole. *)
Definition ServeHTTP (req : Request) (s : Storage) : res state :=
  serve jsonEncode jsonDecode (logger defaultHandler) h req s.

End RootHandlers.

End Root.

(** ** Concrete servers, stores and requests of the endpoints *)

Module Scenes.
Import Server Codec Storage HTTP Root Fixtures.

(** A decoder of bodies of the form [token.session-id], and stand-ins
    for what comes from outside the repository. *)
Definition pairDecode (body : gostring) : gostring + gostring * gostring :=
  match Split body with
  | [tok; sid] => inr (tok, sid)
  | _ => inl (lit "unexpected end of JSON input")
  end.

Definition sameText (a b : gostring) : bool := bool_decide (a = b).
Definition requestLine (r : Request) : gostring := Method r ++ lit " " ++ Path r.
Definition peer (r : Request) : gostring := lit "192.0.2.7".
Definition encodeLine (i : Interaction) : gostring + gostring :=
  inl (UniqueID i ++ lit " " ++ RawRequest i).

(** Requests that carry the token of [guarded]. *)
Definition registering : Request :=
  {| Method := lit "POST"; Path := lit "/register"; Host := lit "example.com";
     Authorization := lit "s3cret"; QueryID := []; QuerySecret := [];
     Body := lit "t0ken." ++ sid |}.

Definition deregistering : Request :=
  {| Method := lit "POST"; Path := lit "/deregister"; Host := lit "example.com";
     Authorization := lit "s3cret"; QueryID := []; QuerySecret := [];
     Body := lit "." ++ sid |}.

Definition polling : Request :=
  {| Method := lit "GET"; Path := lit "/poll"; Host := lit "example.com";
     Authorization := lit "s3cret"; QueryID := sid; QuerySecret := lit "t0ken";
     Body := [] |}.

Definition pollingBlind : Request :=
  {| Method := lit "GET"; Path := lit "/poll"; Host := lit "example.com";
     Authorization := lit "s3cret"; QueryID := []; QuerySecret := [];
     Body := [] |}.

Definition measuring : Request :=
  {| Method := lit "GET"; Path := lit "/metrics"; Host := lit "example.com";
     Authorization := lit "s3cret"; QueryID := []; QuerySecret := [];
     Body := [] |}.

(** A store with the operator's bucket, which holds one interaction, and
    a session made by [SetID]. *)
Definition operatorRecord : CorrelationData :=
  {| Data := [storedWrite payload]; dataMutex := Some Unlocked; token := [] |}.

Definition serving : Storage :=
  cache_Set (cache_Set (New 0) (lit "s3cret") operatorRecord) sid bucketRecord.

Definition polled : Storage := cache_Set serving sid (withData bucketRecord []).

(** Requests on the route [/]: one whose host carries the identifier
    [alphabet], one whose host carries none. *)
Definition visiting : Request :=
  {| Method := lit "GET"; Path := lit "/"; Host := reflected;
     Authorization := []; QueryID := []; QuerySecret := []; Body := [] |}.

Definition browsing : Request :=
  {| Method := lit "GET"; Path := lit "/"; Host := lit "www.example.com";
     Authorization := []; QueryID := []; QuerySecret := []; Body := [] |}.

(** The store with the session of [alphabet]. *)
Definition listening : Storage := cache_Set (New 0) (take 20 alphabet) bucketRecord.

(** A server with root-TLD capture, its domain written with a final dot,
    and the store with the bucket of the domain. *)
Definition capturing : HTTPServer :=
  NewHTTPServer {| Domain := lit "example.com."; Auth := true; Token := lit "s3cret";
                   RootTLD := true; OriginURL := lit "*" |}.

Definition catching : Storage := cache_Set (New 0) (lit "example.com") bucketRecord.

(** What the default handler of a server records for [browsing]: the
    banner. *)
Definition bannerPage (h : HTTPServer) : ResponseWriter :=
  Write (Header_Set newWriter "Server" (domain h))
        (bannerHead ++ domain h ++ bannerTail).

(** What the logger sends of a recorded response. *)
Definition relayed (rec : ResponseWriter) : ResponseWriter :=
  Write (WriteHeader (copyHeader rec newWriter) (recordedStatus rec)) (body rec).

End Scenes.

(** * Properties *)

(** ** Identifier protocol: checks on the examples of the specification *)

Module ServerExamples.
Import Server Fixtures.

Example split_host :
  Split (lit "x.abc.example.com") = [lit "x"; lit "abc"; lit "example"; lit "com"].
Proof. reflexivity. Qed.

Example split_empty : Split [] = [[]].
Proof. reflexivity. Qed.

Example extract_plain :
  ExtractIdentifier (A33 ++ lit ".example.com")
  = Some {| correlationID := replicate 20 "A"%char; uniqueID := A33;
            fullID := A33; found := true |}.
Proof. vm_compute. reflexivity. Qed.

Example extract_prefixed :
  fullID <$> ExtractIdentifier (lit "x." ++ A33 ++ lit ".example.com")
  = Some (lit "x." ++ A33).
Proof. vm_compute. reflexivity. Qed.

Example extract_none :
  ExtractIdentifier (lit "www.example.com")
  = Some {| correlationID := []; uniqueID := []; fullID := []; found := false |}.
Proof. vm_compute. reflexivity. Qed.

Example reflect_abc :
  URLReflection (lit "abcdefghijklmnopqrstuvwxyz0123456.example.com")
  = Some (lit "6543210zyxwvutsrqponmlkjihgfedcba").
Proof. vm_compute. reflexivity. Qed.

Example reflect_none : URLReflection (lit "www.example.com") = Some [].
Proof. vm_compute. reflexivity. Qed.

(** A character of two bytes stays whole. *)
Example reflect_two_bytes :
  URLReflection (replicate 31 "a"%char ++ [mkbyte 0xC3; mkbyte 0xA9] ++ lit ".example.com")
  = Some ([mkbyte 0xC3; mkbyte 0xA9] ++ replicate 31 "a"%char).
Proof. vm_compute. reflexivity. Qed.

(** A byte outside UTF-8 is the character U+FFFD to [[]rune]. *)
Example reflect_replacement :
  URLReflection (replicate 32 "a"%char ++ [mkbyte 0xFF] ++ lit ".example.com")
  = Some ([mkbyte 0xEF; mkbyte 0xBF; mkbyte 0xBD] ++ replicate 32 "a"%char).
Proof. vm_compute. reflexivity. Qed.

End ServerExamples.

(** ** Go strings: splitting and joining *)

Module GoStringFacts.

Lemma Split_nonempty s : Split s <> [].
Proof.
  destruct s as [|c s]; [done|]. simpl.
  case_decide; [done|]. by destruct (Split s).
Qed.

(** Joining the parts of a string gives the string back. *)
Lemma Join_Split s : Join (Split s) = s.
Proof.
  induction s as [|c s IH]; [done|]. simpl.
  pose proof (Split_nonempty s) as Hne.
  case_decide as Hc.
  - subst c. destruct (Split s) as [|p ps]; [done|].
    cbn [Join app] in *. by rewrite IH.
  - destruct (Split s) as [|p ps]; [done|].
    destruct ps as [|q ps]; cbn [Join app] in *; by rewrite <- IH.
Qed.

(** No part holds a separator. *)
Lemma Split_no_dot s : Forall (fun p => dot ∉ p) (Split s).
Proof.
  induction s as [|c s IH]; simpl.
  - repeat constructor. by intros ?%elem_of_nil.
  - case_decide as Hc.
    + constructor; [by intros ?%elem_of_nil | done].
    + pose proof (Split_nonempty s) as Hne.
      destruct (Split s) as [|p ps]; [done|].
      inversion IH as [|? ? Hp Hps]; subst. constructor; [|done].
      intros [Heq|?]%elem_of_cons; [congruence | done].
Qed.

End GoStringFacts.

(** ** Runes: decoding undoes encoding *)

Module Utf8Facts.
Import Utf8.

Lemma bv_range c : 0 <= bv c < 256.
Proof.
  unfold bv. pose proof (N_ascii_bounded c). lia.
Qed.

Lemma mkbyte_bv c : mkbyte (bv c) = c.
Proof.
  unfold mkbyte. rewrite Z.mod_small by apply bv_range.
  unfold bv. rewrite N2Z.id. apply ascii_N_embedding.
Qed.

Lemma bv_mkbyte z : bv (mkbyte z) = z mod 256.
Proof.
  unfold bv, mkbyte. pose proof (Z.mod_pos_bound z 256 eq_refl).
  rewrite N_ascii_embedding by lia. lia.
Qed.

(** Bitwise or of a multiple of [2^k] and a number below [2^k] is their sum. *)
Lemma lor_add a lo k m :
  0 <= k -> m = 2 ^ k -> a mod m = 0 -> 0 <= lo < m -> Z.lor a lo = a + lo.
Proof.
  intros Hk -> Ha Hlo.
  assert (Hland : Z.land a lo = 0).
  { apply Z.bits_inj'. intros n Hn. rewrite Z.land_spec, Z.bits_0.
    destruct (Z.lt_ge_cases n k) as [Hlt|Hge].
    - rewrite <- (Z.mod_pow2_bits_low a k n) by lia. rewrite Ha, Z.bits_0. done.
    - destruct (Z.eq_dec lo 0) as [->|Hne]; [by rewrite Z.bits_0, andb_false_r|].
      rewrite (Z.bits_above_log2 lo n), andb_false_r; [done|lia|].
      apply Z.log2_lt_pow2; [lia|].
      eapply Z.lt_le_trans; [apply Hlo|]. apply Z.pow_le_mono_r; lia. }
  rewrite <- Z.lxor_lor by done. symmetry. by apply Z.add_nocarry_lxor.
Qed.

Lemma land_63 a : Z.land a 63 = a mod 64.
Proof. change 63 with (Z.ones 6). by rewrite Z.land_ones. Qed.
Lemma land_31 a : Z.land a 31 = a mod 32.
Proof. change 31 with (Z.ones 5). by rewrite Z.land_ones. Qed.
Lemma land_15 a : Z.land a 15 = a mod 16.
Proof. change 15 with (Z.ones 4). by rewrite Z.land_ones. Qed.
Lemma land_7 a : Z.land a 7 = a mod 8.
Proof. change 7 with (Z.ones 3). by rewrite Z.land_ones. Qed.
Lemma shiftr_6 a : Z.shiftr a 6 = a / 64.
Proof. by rewrite Z.shiftr_div_pow2. Qed.
Lemma shiftr_12 a : Z.shiftr a 12 = a / 4096.
Proof. by rewrite Z.shiftr_div_pow2. Qed.
Lemma shiftr_18 a : Z.shiftr a 18 = a / 262144.
Proof. by rewrite Z.shiftr_div_pow2. Qed.
Lemma shiftl_6 a : Z.shiftl a 6 = a * 64.
Proof. by rewrite Z.shiftl_mul_pow2. Qed.
Lemma shiftl_12 a : Z.shiftl a 12 = a * 4096.
Proof. by rewrite Z.shiftl_mul_pow2. Qed.
Lemma shiftl_18 a : Z.shiftl a 18 = a * 262144.
Proof. by rewrite Z.shiftl_mul_pow2. Qed.

Ltac arith := Z.div_mod_to_equations; lia.

Ltac bool_cases :=
  repeat match goal with
    | |- context [?a <? ?b] => destruct (Z.ltb_spec a b); try arith
    | |- context [?a <=? ?b] => destruct (Z.leb_spec a b); try arith
    end.

(** The bytes of a code point, by arithmetic. *)
Lemma encoderune_1 r : 0 <= r <= 0x7F -> encoderune r = [mkbyte r].
Proof.
  intros Hr. unfold encoderune, rune1Max. rewrite Z.mod_small by lia.
  bool_cases. all: try done.
Qed.

Lemma encoderune_2 r :
  0x80 <= r <= 0x7FF ->
  encoderune r = [mkbyte (0xC0 + r / 64); mkbyte (0x80 + r mod 64)].
Proof.
  intros Hr. unfold encoderune, rune1Max, rune2Max, t2, tx, maskx.
  rewrite Z.mod_small by lia. bool_cases.
  all: rewrite shiftr_6, land_63.
  all: rewrite (lor_add 0xC0 _ 5 32), (lor_add 0x80 _ 6 64) by (try done; arith).
  all: done.
Qed.

Lemma encoderune_3 r :
  0x800 <= r <= 0xFFFF -> ~ (surrogateMin <= r <= surrogateMax) ->
  encoderune r
  = [mkbyte (0xE0 + r / 4096); mkbyte (0x80 + (r / 64) mod 64); mkbyte (0x80 + r mod 64)].
Proof.
  intros Hr Hs. unfold surrogateMin, surrogateMax in Hs.
  unfold encoderune, rune1Max, rune2Max, rune3Max, maxRune, surrogateMin, surrogateMax,
    t3, tx, maskx.
  rewrite Z.mod_small by lia. bool_cases; simpl; try lia.
  all: rewrite shiftr_12, shiftr_6, !land_63.
  all: rewrite (lor_add 0xE0 _ 5 32), !(lor_add 0x80 _ 6 64) by (try done; arith).
  all: done.
Qed.

Lemma encoderune_4 r :
  0x10000 <= r <= 0x10FFFF ->
  encoderune r
  = [mkbyte (0xF0 + r / 262144); mkbyte (0x80 + (r / 4096) mod 64);
     mkbyte (0x80 + (r / 64) mod 64); mkbyte (0x80 + r mod 64)].
Proof.
  intros Hr.
  unfold encoderune, rune1Max, rune2Max, rune3Max, maxRune, surrogateMin, surrogateMax,
    t4, tx, maskx.
  rewrite Z.mod_small by lia. bool_cases; simpl; try lia.
  all: rewrite shiftr_18, shiftr_12, shiftr_6, !land_63.
  all: rewrite (lor_add 0xF0 _ 4 16), !(lor_add 0x80 _ 6 64) by (try done; arith).
  all: done.
Qed.

Ltac unfold_consts :=
  unfold cont, runeSelf, rune1Max, rune2Max, rune3Max, maxRune, surrogateMin, surrogateMax,
    t2, t3, t4, t5, tx, maskx, mask2, mask3, mask4, locb, hicb, runeError in *.

Lemma decoderune_1 b rest :
  0 <= b < 0x80 -> decoderune (mkbyte b :: rest) = (b, 1%nat).
Proof.
  intros Hb. unfold decoderune. rewrite bv_mkbyte, Z.mod_small by lia.
  unfold_consts. bool_cases. all: done.
Qed.

Lemma decoderune_2 h l rest :
  2 <= h < 32 -> 0 <= l < 64 ->
  decoderune (mkbyte (0xC0 + h) :: mkbyte (0x80 + l) :: rest) = (h * 64 + l, 2%nat).
Proof.
  intros Hh Hl. unfold decoderune. rewrite !bv_mkbyte, !Z.mod_small by lia.
  unfold_consts. rewrite ?land_31, ?land_15, ?land_7, ?land_63, ?shiftl_6, ?shiftl_12, ?shiftl_18.
  replace ((192 + h) mod 32) with h by arith.
  replace ((128 + l) mod 64) with l by arith.
  rewrite (lor_add (h * 64) l 6 64) by (try done; arith).
  bool_cases. all: done.
Qed.

Lemma decoderune_3 a b c rest :
  0 <= a < 16 -> 0 <= b < 64 -> 0 <= c < 64 ->
  0x7FF < a * 4096 + b * 64 + c ->
  ~ (0xD800 <= a * 4096 + b * 64 + c <= 0xDFFF) ->
  decoderune (mkbyte (0xE0 + a) :: mkbyte (0x80 + b) :: mkbyte (0x80 + c) :: rest)
  = (a * 4096 + b * 64 + c, 3%nat).
Proof.
  intros Ha Hb Hc Hlo Hs. unfold decoderune. rewrite !bv_mkbyte, !Z.mod_small by lia.
  unfold_consts. rewrite ?land_31, ?land_15, ?land_7, ?land_63, ?shiftl_6, ?shiftl_12, ?shiftl_18.
  replace ((224 + a) mod 16) with a by arith.
  replace ((128 + b) mod 64) with b by arith.
  replace ((128 + c) mod 64) with c by arith.
  rewrite (lor_add (a * 4096) (b * 64) 12 4096) by (try done; arith).
  rewrite (lor_add (a * 4096 + b * 64) c 6 64) by (try done; arith).
  bool_cases. all: simpl; try done; lia.
Qed.

Lemma decoderune_4 a b c d rest :
  0 <= a < 8 -> 0 <= b < 64 -> 0 <= c < 64 -> 0 <= d < 64 ->
  0xFFFF < a * 262144 + b * 4096 + c * 64 + d <= 0x10FFFF ->
  decoderune (mkbyte (0xF0 + a) :: mkbyte (0x80 + b) :: mkbyte (0x80 + c)
                :: mkbyte (0x80 + d) :: rest)
  = (a * 262144 + b * 4096 + c * 64 + d, 4%nat).
Proof.
  intros Ha Hb Hc Hd Hr. unfold decoderune. rewrite !bv_mkbyte, !Z.mod_small by lia.
  unfold_consts. rewrite ?land_31, ?land_15, ?land_7, ?land_63, ?shiftl_6, ?shiftl_12, ?shiftl_18.
  replace ((240 + a) mod 8) with a by arith.
  replace ((128 + b) mod 64) with b by arith.
  replace ((128 + c) mod 64) with c by arith.
  replace ((128 + d) mod 64) with d by arith.
  rewrite (lor_add (a * 262144) (b * 4096) 18 262144) by (try done; arith).
  rewrite (lor_add (a * 262144 + b * 4096) (c * 64) 12 4096) by (try done; arith).
  rewrite (lor_add (a * 262144 + b * 4096 + c * 64) d 6 64) by (try done; arith).
  bool_cases. all: simpl; try done; lia.
Qed.

(** Decoding finds the code point that was encoded, and its width. *)
Lemma decoderune_encoderune r rest :
  validRune r -> decoderune (encoderune r ++ rest) = (r, length (encoderune r)).
Proof.
  unfold validRune, surrogateMin, surrogateMax, maxRune. intros Hr.
  destruct (Z.le_gt_cases r 0x7F); [|destruct (Z.le_gt_cases r 0x7FF);
    [|destruct (Z.le_gt_cases r 0xFFFF)]].
  - rewrite encoderune_1 by lia. cbn [app length]. apply decoderune_1; lia.
  - rewrite encoderune_2 by lia. cbn [app length].
    rewrite decoderune_2 by arith. f_equal. arith.
  - rewrite encoderune_3 by (unfold surrogateMin, surrogateMax; lia). cbn [app length].
    rewrite decoderune_3 by arith. f_equal. arith.
  - rewrite encoderune_4 by lia. cbn [app length].
    rewrite decoderune_4 by arith. f_equal. arith.
Qed.

Lemma encoderune_length r : (1 <= length (encoderune r))%nat.
Proof. unfold encoderune. repeat case_match; simpl; lia. Qed.

Lemma rangeRunes_encoded rs : forall fuel,
  Forall validRune rs -> (length (slicerunetostring rs) <= fuel)%nat ->
  rangeRunes fuel (slicerunetostring rs) = rs.
Proof.
  unfold slicerunetostring.
  induction rs as [|r rs IH]; intros fuel Hall Hfuel.
  - by destruct fuel.
  - inversion Hall as [|? ? Hr Hrs]; subst.
    simpl in *. rewrite length_app in Hfuel.
    pose proof (encoderune_length r) as Hlen.
    destruct fuel as [|fuel]; [lia|]. simpl.
    destruct (encoderune r ++ concat (map encoderune rs)) as [|c s] eqn:Heq.
    { apply (f_equal length) in Heq. rewrite length_app in Heq. simpl in Heq. lia. }
    rewrite <- Heq, decoderune_encoderune, drop_app_length by done.
    f_equal. apply IH; [done|lia].
Qed.

(** [[]rune(string(rs))] gives [rs] back when [rs] holds code points. *)
Lemma stringtoslicerune_slicerunetostring rs :
  Forall validRune rs -> stringtoslicerune (slicerunetostring rs) = rs.
Proof. intros Hall. by apply rangeRunes_encoded. Qed.

(** A string of ASCII bytes is the slice of its bytes. *)
Lemma slicerunetostring_ascii s :
  Forall isASCII s -> slicerunetostring (map bv s) = s.
Proof.
  unfold slicerunetostring, isASCII, runeSelf.
  induction 1 as [|c s Hc _ IH]; simpl; [done|].
  pose proof (bv_range c).
  rewrite encoderune_1, mkbyte_bv, IH by lia. done.
Qed.

Lemma validRune_ascii c : isASCII c -> validRune (bv c).
Proof.
  unfold isASCII, validRune, runeSelf, surrogateMin. pose proof (bv_range c). lia.
Qed.

Lemma stringtoslicerune_ascii s :
  Forall isASCII s -> stringtoslicerune s = map bv s.
Proof.
  intros Hall. rewrite <- (slicerunetostring_ascii s) at 1 by done.
  apply stringtoslicerune_slicerunetostring.
  apply Forall_fmap. eapply Forall_impl; [done|]. apply validRune_ascii.
Qed.
End Utf8Facts.

(** ** Identifier protocol *)

Module ServerFacts.
Import Utf8 Server Utf8Facts Fixtures.

Lemma scanRandomID_none parts r :
  Forall notWidth parts -> scanRandomID parts r = r.
Proof.
  intros Hall. revert r. induction Hall as [|p ps Hp _ IH]; intros r; simpl; [done|].
  rewrite IH. apply Nat.eqb_neq in Hp. by rewrite Hp.
Qed.

Lemma scanRandomID_last pre l post r :
  length l = idWidth -> Forall notWidth post ->
  scanRandomID (pre ++ l :: post) r = l.
Proof.
  intros Hl Hpost. revert r. induction pre as [|p pre IH]; intros r; simpl.
  - rewrite Hl, Nat.eqb_refl. by apply scanRandomID_none.
  - apply IH.
Qed.

Lemma scanParts_none parts todo i st :
  Forall notWidth todo -> scanParts parts todo i st = st.
Proof.
  intros Hall. revert i st. induction Hall as [|p ps Hp _ IH]; intros i st; simpl; [done|].
  rewrite IH. apply Nat.eqb_neq in Hp. by rewrite Hp.
Qed.

Lemma scanParts_last seen pre l post st :
  length l = idWidth -> Forall notWidth post ->
  scanParts (seen ++ pre ++ l :: post) (pre ++ l :: post) (length seen) st
  = (l, Join (seen ++ pre ++ [l])).
Proof.
  intros Hl Hpost. revert seen st. induction pre as [|p pre IH]; intros seen st.
  - simpl. rewrite Hl, Nat.eqb_refl, scanParts_none by done.
    f_equal. rewrite length_app. simpl.
    destruct (Nat.leb_spec (length seen + 1) (length seen + S (length post))); [|lia].
    f_equal. replace (seen ++ l :: post) with ((seen ++ [l]) ++ post) by by rewrite <- app_assoc.
    rewrite take_app_length'; [done|]. rewrite length_app. simpl. lia.
  - simpl scanParts.
    specialize (IH (seen ++ [p])).
    rewrite length_app in IH. simpl in IH.
    replace (S (length seen)) with (length seen + 1)%nat by lia.
    rewrite <- !app_assoc in IH. simpl in IH. apply IH.
Qed.

Ltac ltb_cases :=
  repeat match goal with
    | |- context [?a <? ?b] => destruct (Z.ltb_spec a b); try lia
    | |- context [?a <=? ?b] => destruct (Z.leb_spec a b); try lia
    end.

Lemma index_middle (l1 l2 : list Z) x i :
  i = Z.of_nat (length l1) -> index (l1 ++ x :: l2) i = Some x.
Proof.
  intros ->. unfold index. rewrite length_app. simpl. ltb_cases. simpl.
  rewrite Nat2Z.id. by apply list_lookup_middle.
Qed.

Lemma assign_middle (l1 l2 : list Z) x y i :
  i = Z.of_nat (length l1) -> assign (l1 ++ x :: l2) i y = Some (l1 ++ y :: l2).
Proof.
  intros ->. unfold assign. rewrite length_app. simpl. ltb_cases. simpl.
  rewrite Nat2Z.id, insert_app_r_alt, Nat.sub_diag by lia. done.
Qed.

(** The swap loop reverses the part of the slice between its indices. *)
Lemma swapLoop_rev fuel : forall m p q,
  (length m <= fuel)%nat ->
  swapLoop fuel (p ++ m ++ q) (Z.of_nat (length p)) (Z.of_nat (length p + length m) - 1)
  = Some (p ++ rev m ++ q).
Proof.
  induction fuel as [|fuel IH]; intros m p q Hfuel.
  - destruct m; [done | simpl in Hfuel; lia].
  - cbn [swapLoop]. destruct m as [|a m].
    + cbn [length app]. ltb_cases. done.
    + destruct m as [|b m _] using rev_ind.
      * cbn [length app]. ltb_cases. done.
      * rewrite length_cons, length_app in *. cbn [length] in *.
        ltb_cases.
        set (i := Z.of_nat (length p)) in *.
        set (j := Z.of_nat (length p + S (length m + 1)) - 1) in *.
        assert (Hj : j = Z.of_nat (length (p ++ a :: m)))
          by (rewrite length_app, length_cons; lia).
        assert (E1 : p ++ (a :: m ++ [b]) ++ q = (p ++ a :: m) ++ b :: q)
          by (by rewrite <- ?app_assoc; simpl; rewrite <- ?app_assoc).
        assert (E2 : p ++ (a :: m ++ [b]) ++ q = p ++ a :: m ++ b :: q)
          by (by rewrite <- ?app_assoc; simpl; rewrite <- ?app_assoc).
        rewrite E1 at 1. rewrite (index_middle _ _ _ _ Hj). cbn [mbind option_bind].
        rewrite E2. rewrite (index_middle p _ a i eq_refl). cbn [mbind option_bind].
        rewrite (assign_middle p _ a b i eq_refl). cbn [mbind option_bind].
        assert (E3 : p ++ b :: m ++ b :: q = (p ++ b :: m) ++ b :: q)
          by (by rewrite <- ?app_assoc; simpl; rewrite <- ?app_assoc).
        rewrite E3, (assign_middle (p ++ b :: m) _ b a j)
          by (rewrite Hj, !length_app, !length_cons; lia).
        cbn [mbind option_bind].
        specialize (IH m (p ++ [b]) (a :: q)).
        rewrite length_app in IH. cbn [length] in IH.
        replace (i + 1) with (Z.of_nat (length p + 1)) by lia.
        replace (j - 1) with (Z.of_nat (length p + 1 + length m) - 1) by lia.
        replace ((p ++ b :: m) ++ a :: q) with ((p ++ [b]) ++ m ++ a :: q)
          by (by rewrite <- ?app_assoc; simpl; rewrite <- ?app_assoc).
        rewrite IH by lia.
        f_equal. simpl. rewrite rev_app_distr. simpl.
        by rewrite <- ?app_assoc; simpl; rewrite <- ?app_assoc.
Qed.

Lemma swapLoop_whole rns :
  swapLoop (length rns) rns 0 (Z.of_nat (length rns) - 1) = Some (rev rns).
Proof.
  pose proof (swapLoop_rev (length rns) rns [] []) as Hs.
  simpl in Hs. rewrite !app_nil_r in Hs. by apply Hs.
Qed.

Lemma hasWidth_nonempty l : hasWidth l -> l <> [].
Proof. intros Hl ->. discriminate Hl. Qed.

(** Among labels of which one has the width, one is the last to have it. *)
Lemma last_label parts :
  Exists hasWidth parts ->
  exists pre l post, parts = pre ++ l :: post /\ hasWidth l /\ Forall notWidth post.
Proof.
  induction parts as [|p ps IH]; intros Hex; [by inversion Hex|].
  destruct (@Exists_dec _ hasWidth (fun q => Nat.eq_dec (length q) idWidth) ps)
    as [Hlater | Hnone].
  - destruct (IH Hlater) as (pre & l & post & -> & Hl & Hpost).
    by exists (p :: pre), l, post.
  - apply Forall_Exists_neg in Hnone.
    inversion Hex as [? ? Hp | ? ? Hps]; subst; [|by apply Forall_Exists_neg in Hnone].
    by exists [], p, ps.
Qed.

(** Extraction is decided by the last label of the width. *)
Lemma ExtractIdentifier_last host pre l post :
  Split host = pre ++ l :: post -> hasWidth l -> Forall notWidth post ->
  ExtractIdentifier host = Some (extractedAt pre l).
Proof.
  intros Hsplit Hl Hpost. unfold ExtractIdentifier. rewrite Hsplit.
  pose proof (scanParts_last [] pre l post ([], []) Hl Hpost) as Hscan.
  cbn [app length] in Hscan. rewrite Hscan.
  rewrite decide_False by by apply hasWidth_nonempty.
  unfold slice_to, extractedAt. rewrite Hl. done.
Qed.

Lemma ExtractIdentifier_none host :
  Forall notWidth (Split host) -> ExtractIdentifier host = Some notFound.
Proof.
  intros Hall. unfold ExtractIdentifier.
  by rewrite scanParts_none.
Qed.

Lemma URLReflection_last host pre l post :
  Split host = pre ++ l :: post -> hasWidth l -> Forall notWidth post ->
  URLReflection host = Some (slicerunetostring (rev (stringtoslicerune l))).
Proof.
  intros Hsplit Hl Hpost. unfold URLReflection.
  rewrite Hsplit, scanRandomID_last by done.
  rewrite decide_False by by apply hasWidth_nonempty.
  by rewrite swapLoop_whole.
Qed.

(** C4, as stated: on the host [A..A.B..B.example.com] the earliest label
    of width 33 does not determine the identifier. *)
Lemma first_match_refuted : ~ firstMatchWins twoLabels.
Proof.
  intros Hclaim.
  specialize (Hclaim [] A33 [B33; lit "example"; lit "com"]).
  assert (Hex : ExtractIdentifier twoLabels = Some (extractedAt [A33] B33))
    by (vm_compute; reflexivity).
  rewrite Hex in Hclaim.
  assert (Hne : Some (extractedAt [A33] B33) = Some (extractedAt [] A33) -> False)
    by (vm_compute; discriminate).
  apply Hne, Hclaim.
  - vm_compute; reflexivity.
  - constructor.
  - reflexivity.
  - left. reflexivity.
Qed.

(** C4, amended: the scan runs over all the labels of the host from left
    to right and never stops early, so the LAST label of length 33 is the
    embedded identifier: it is the unique ID, its first 20 characters are
    the correlation ID, and the labels up to and including it, joined by
    dots, are the full ID. *)
Theorem extract_last_match host :
  (forall pre l post,
      Split host = pre ++ l :: post -> hasWidth l -> Forall notWidth post ->
      ExtractIdentifier host
      = Some {| correlationID := take 20 l; uniqueID := l;
                fullID := Join (pre ++ [l]); found := true |})
  /\ (Exists hasWidth (Split host) ->
      exists pre l post,
        Split host = pre ++ l :: post /\ hasWidth l /\ Forall notWidth post).
Proof.
  split.
  - intros pre l post. apply ExtractIdentifier_last.
  - apply last_label.
Qed.

Lemma extract_last_match_witness :
  Split twoLabels = [A33] ++ B33 :: [lit "example"; lit "com"]
  /\ hasWidth B33
  /\ Forall notWidth [lit "example"; lit "com"]
  /\ ExtractIdentifier twoLabels
     = Some {| correlationID := take 20 B33; uniqueID := B33;
               fullID := Join ([A33] ++ [B33]); found := true |}.
Proof.
  assert (H1 : Split twoLabels = [A33] ++ B33 :: [lit "example"; lit "com"])
    by (vm_compute; reflexivity).
  assert (H2 : hasWidth B33) by reflexivity.
  assert (H3 : Forall notWidth [lit "example"; lit "com"])
    by (repeat constructor; vm_compute; discriminate).
  exact (conj H1 (conj H2 (conj H3 (proj1 (extract_last_match twoLabels) _ _ _ H1 H2 H3)))).
Defined.

(** C5: on a host with exactly one label of length 33, the correlation ID
    is the first 20 characters of that label and the full ID is the
    dot-joined labels from the start of the host up to and including it;
    on a host with no such label, extraction reports not-found and every
    output is empty. *)
Theorem extract_single_label host :
  (forall pre l post,
      Split host = pre ++ l :: post ->
      Forall notWidth pre -> hasWidth l -> Forall notWidth post ->
      ExtractIdentifier host
      = Some {| correlationID := take 20 l; uniqueID := l;
                fullID := Join (pre ++ [l]); found := true |})
  /\ (Forall notWidth (Split host) ->
      ExtractIdentifier host
      = Some {| correlationID := []; uniqueID := []; fullID := []; found := false |}).
Proof.
  split.
  - intros pre l post Hsplit _ Hl Hpost. by apply (ExtractIdentifier_last host pre l post).
  - apply ExtractIdentifier_none.
Qed.

Lemma extract_single_label_witness :
  (Split oneLabel = [lit "x"] ++ A33 :: [lit "example"; lit "com"]
   /\ Forall notWidth [lit "x"] /\ hasWidth A33
   /\ Forall notWidth [lit "example"; lit "com"]
   /\ ExtractIdentifier oneLabel
      = Some {| correlationID := take 20 A33; uniqueID := A33;
                fullID := Join ([lit "x"] ++ [A33]); found := true |})
  /\ (Forall notWidth (Split noLabel)
      /\ ExtractIdentifier noLabel
         = Some {| correlationID := []; uniqueID := []; fullID := []; found := false |}).
Proof.
  assert (H1 : Split oneLabel = [lit "x"] ++ A33 :: [lit "example"; lit "com"])
    by (vm_compute; reflexivity).
  assert (H2 : Forall notWidth [lit "x"])
    by (repeat constructor; vm_compute; discriminate).
  assert (H3 : hasWidth A33) by reflexivity.
  assert (H4 : Forall notWidth [lit "example"; lit "com"])
    by (repeat constructor; vm_compute; discriminate).
  assert (H5 : Forall notWidth (Split noLabel))
    by (repeat constructor; vm_compute; discriminate).
  split.
  - exact (conj H1 (conj H2 (conj H3 (conj H4
             (proj1 (extract_single_label oneLabel) _ _ _ H1 H2 H3 H4))))).
  - exact (conj H5 (proj2 (extract_single_label noLabel) H5)).
Defined.

(** C6: when some label of the host has length 33, there is a last such
    label and [URLReflection] returns it with its characters reversed, the
    characters being the runes of the conversion [[]rune] (to which a byte
    outside UTF-8 is the character U+FFFD): for a label that is the UTF-8
    form of the code points [rs] the result is the UTF-8 form of [rs]
    reversed, and for a label of ASCII bytes it is the bytes reversed. When
    no label has length 33 it returns the empty string. It never panics. *)
Theorem reflection_last_reversed host :
  (forall pre l post,
      Split host = pre ++ l :: post -> hasWidth l -> Forall notWidth post ->
      URLReflection host = Some (slicerunetostring (rev (stringtoslicerune l)))
      /\ (forall rs, Forall validRune rs -> slicerunetostring rs = l ->
                     URLReflection host = Some (slicerunetostring (rev rs)))
      /\ (Forall isASCII l -> URLReflection host = Some (rev l)))
  /\ (Exists hasWidth (Split host) ->
      exists pre l post,
        Split host = pre ++ l :: post /\ hasWidth l /\ Forall notWidth post)
  /\ (Forall notWidth (Split host) -> URLReflection host = Some []).
Proof.
  split; [|split].
  - intros pre l post Hsplit Hl Hpost.
    pose proof (URLReflection_last host pre l post Hsplit Hl Hpost) as Hrefl.
    split; [done|]. split.
    + intros rs Hrs <-. by rewrite Hrefl, stringtoslicerune_slicerunetostring.
    + intros Hascii. rewrite Hrefl, stringtoslicerune_ascii by done.
      rewrite <- map_rev. rewrite slicerunetostring_ascii; [done|].
      by apply Forall_rev.
  - apply last_label.
  - intros Hall. unfold URLReflection. by rewrite scanRandomID_none.
Qed.

Lemma reflection_last_reversed_witness :
  (Split reflected = [] ++ alphabet :: [lit "example"; lit "com"]
   /\ hasWidth alphabet
   /\ Forall notWidth [lit "example"; lit "com"]
   /\ Forall isASCII alphabet
   /\ URLReflection reflected = Some (rev alphabet))
  /\ (Forall notWidth (Split noLabel) /\ URLReflection noLabel = Some []).
Proof.
  assert (H1 : Split reflected = [] ++ alphabet :: [lit "example"; lit "com"])
    by (vm_compute; reflexivity).
  assert (H2 : hasWidth alphabet) by reflexivity.
  assert (H3 : Forall notWidth [lit "example"; lit "com"])
    by (repeat constructor; vm_compute; discriminate).
  assert (H4 : Forall isASCII alphabet)
    by (repeat constructor; vm_compute; reflexivity).
  assert (H5 : Forall notWidth (Split noLabel))
    by (repeat constructor; vm_compute; discriminate).
  split.
  - exact (conj H1 (conj H2 (conj H3 (conj H4
      (proj2 (proj2 (proj1 (reflection_last_reversed reflected) _ _ _ H1 H2 H3)) H4))))).
  - exact (conj H5 (proj2 (proj2 (reflection_last_reversed noLabel)) H5)).
Defined.

End ServerFacts.

(** ** Codec: the instance *)

Module CodecFacts.
Import Codec Utf8Facts.

(** The reader of stored blocks finds what the writer put. *)
Lemma storedRead_storedBlocks data : forall tail fuel,
  (length data < fuel)%nat ->
  storedRead fuel (storedBlocks data ++ tail) = Some (data, tail).
Proof.
  induction data as [|c data IH]; intros tail fuel Hfuel.
  - destruct fuel as [|fuel]; [lia|]. cbn [storedBlocks app storedRead].
    rewrite !bv_mkbyte. change (1 mod 256) with 1. change (0 mod 256) with 0.
    change (255 mod 256) with 255.
    change (Z.lor 0 (Z.shiftl 0 8)) with 0.
    change (Z.land (Z.shiftr 1 1) 3 =? 0) with true.
    change (Z.lor 255 (Z.shiftl 255 8) =? Z.lxor 0 65535) with true.
    change (Z.testbit 1 0) with true.
    replace (0 <=? Z.of_nat (length tail)) with true by (symmetry; apply Z.leb_le; lia).
    done.
  - destruct fuel as [|fuel]; [simpl in Hfuel; lia|].
    cbn [storedBlocks app storedRead].
    rewrite !bv_mkbyte. change (1 mod 256) with 1. change (0 mod 256) with 0.
    change (255 mod 256) with 255. change (254 mod 256) with 254.
    change (Z.lor 1 (Z.shiftl 0 8)) with 1.
    change (Z.land (Z.shiftr 0 1) 3 =? 0) with true.
    change (Z.lor 254 (Z.shiftl 255 8) =? Z.lxor 1 65535) with true.
    change (Z.testbit 0 0) with false.
    replace (1 <=? Z.of_nat (length (c :: storedBlocks data ++ tail)))
      with true by (symmetry; apply Z.leb_le; rewrite length_cons; lia).
    change (Z.to_nat 1) with 1%nat.
    cbn [andb take drop]. rewrite take_0, drop_0.
    rewrite IH by (simpl in Hfuel; lia). done.
Qed.

Lemma storedBlocks_length data : (length (storedBlocks data) = 6 * length data + 5)%nat.
Proof. induction data as [|c data IH]; simpl; lia. Qed.

Lemma storedCopy_storedWrite data : storedCopy (storedWrite data) = (data, false).
Proof.
  unfold storedCopy, storedWrite. cbn [app drop]. rewrite drop_0.
  rewrite storedRead_storedBlocks.
  - by rewrite decide_True.
  - simpl. rewrite length_app, storedBlocks_length. lia.
Qed.

Lemma zlibHeader_storedWrite data : zlibHeader (storedWrite data) = true.
Proof. reflexivity. Qed.

(** Stored blocks obey the laws of the codec. *)
Lemma storedZlib_laws : ZlibLaws storedZlib.
Proof.
  split.
  - intros data blob [= <-]. split.
    + apply zlibHeader_storedWrite.
    + apply storedCopy_storedWrite.
  - done.
Qed.
End CodecFacts.

(** ** Correlation store *)

Module StorageFacts.
Import Codec Storage CodecFacts Fixtures.

(** *** The mutex *)

Lemma Lock_nil c : dataMutex c = None -> Lock c = Panic.
Proof. unfold Lock. by intros ->. Qed.

Lemma critical_section {A} c (f : list gostring -> list gostring)
      (k : CorrelationData -> res A) :
  free c ->
  (c1 ← Lock c; c2 ← Unlock (withData c1 (f (Data c1))); k c2)
  = k (withData c (f (Data c))).
Proof.
  unfold free, Lock, Unlock, withData. destruct c; simpl. by intros ->.
Qed.

Section WithZlib.
Context `{Zlib}.

(** *** Decompression of a batch *)

Lemma inflateLoop_map items : forall seen reader rest,
  inflateLoop items (length seen) reader []
    (seen ++ replicate (length items) [] ++ rest)
  = seen ++ map inflateOne items ++ rest.
Proof.
  induction items as [|item items IH]; intros seen reader rest; [done|].
  cbn [inflateLoop length replicate map app]. unfold inflateOne.
  assert (Hnext : forall x reader',
    inflateLoop items (S (length seen)) reader' []
      (seen ++ x :: replicate (length items) [] ++ rest)
    = seen ++ x :: map inflateOne items ++ rest).
  { intros x reader'. specialize (IH (seen ++ [x]) reader' rest).
    rewrite length_app, <- !app_assoc in IH. cbn [length app] in IH.
    by replace (length seen + 1)%nat with (S (length seen)) in IH by lia. }
  destruct (readerReset item); [|apply Hnext].
  destruct (ioCopy item) as [written failed].
  destruct failed; [apply Hnext|].
  rewrite insert_app_r_alt, Nat.sub_diag by lia. cbn [insert list_insert app].
  apply Hnext.
Qed.

Lemma decompressAll_map data : decompressAll data = map inflateOne data.
Proof.
  unfold decompressAll. destruct data as [|item data]; [done|].
  cbn [length Nat.eqb].
  pose proof (inflateLoop_map (item :: data) [] false []) as Hloop.
  cbn [length app] in Hloop. rewrite !app_nil_r in Hloop. apply Hloop.
Qed.

Lemma inflateOne_refused item : readerReset item = false -> inflateOne item = [].
Proof. intros Hr. unfold inflateOne. by rewrite Hr. Qed.

Lemma inflateOne_written `{!ZlibLaws H} data blob :
  zlibWrite data = inl blob -> inflateOne blob = data.
Proof.
  intros Hw. destruct (read_written _ _ Hw) as [Hr Hc].
  unfold inflateOne. by rewrite Hr, Hc.
Qed.

(** Under the laws, what does not start with a zlib header is refused. *)
Lemma inflateOne_no_header `{!ZlibLaws H} item :
  zlibHeader item = false -> inflateOne item = [].
Proof.
  intros Hh. apply inflateOne_refused.
  destruct (readerReset item) eqn:Hr; [|done].
  apply reset_header in Hr. congruence.
Qed.

(** *** Records *)

Lemma CorrelationData_GetInteractions_free c :
  free c ->
  CorrelationData_GetInteractions c = Val (withData c [], decompressAll (Data c)).
Proof.
  unfold free, CorrelationData_GetInteractions, Lock, Unlock, withData.
  destruct c; simpl. by intros ->.
Qed.

Lemma CorrelationData_GetInteractions_nil c :
  dataMutex c = None -> CorrelationData_GetInteractions c = Panic.
Proof.
  intros Hc. unfold CorrelationData_GetInteractions. by rewrite Lock_nil.
Qed.

(** *** Operations on a record whose mutex is there and free *)

Lemma AddInteraction_free s id c data :
  cache s !! id = Some c -> free c ->
  AddInteraction s id data = Val (cache_Set s id (withData c (Data c ++ [data])), None).
Proof.
  intros Hget Hc. unfold AddInteraction, cache_Get. rewrite Hget.
  by rewrite (critical_section c (fun d => d ++ [_])).
Qed.

Lemma AddInteractionWithId_free s id c data blob :
  cache s !! id = Some c -> free c -> zlibWrite data = inl blob ->
  AddInteractionWithId s id data
  = Val (cache_Set s id (withData c (Data c ++ [blob])), None).
Proof.
  intros Hget Hc Hw. unfold AddInteractionWithId, cache_Get. rewrite Hget, Hw.
  by rewrite (critical_section c (fun d => d ++ [_])).
Qed.

Lemma GetInteractions_free s id c secret :
  cache s !! id = Some c -> free c ->
  GetInteractions s id secret
  = Val (cache_Set s id (withData c []), (map inflateOne (Data c), [], None)).
Proof.
  intros Hget Hc. unfold GetInteractions, cache_Get. rewrite Hget.
  rewrite CorrelationData_GetInteractions_free by done. simpl.
  by rewrite decompressAll_map.
Qed.

Lemma GetInteractionsWithId_free s id c :
  cache s !! id = Some c -> free c ->
  GetInteractionsWithId s id
  = Val (cache_Set s id (withData c []), (map inflateOne (Data c), None)).
Proof.
  intros Hget Hc. unfold GetInteractionsWithId, cache_Get. rewrite Hget.
  rewrite CorrelationData_GetInteractions_free by done. simpl.
  by rewrite decompressAll_map.
Qed.

Lemma RemoveID_free s id c tok :
  cache s !! id = Some c -> free c ->
  RemoveID s id tok = Val (cache_Delete s id, None).
Proof.
  intros Hget Hc. unfold RemoveID, cache_Get. rewrite Hget.
  rewrite (critical_section c (fun _ => [])) by done. simpl. do 2 f_equal.
  unfold cache_Delete, cache_Set, withCache. simpl.
  f_equal. apply delete_insert_eq.
Qed.

Lemma cache_Set_lookup s id c : cache (cache_Set s id c) !! id = Some c.
Proof. apply lookup_insert_eq. Qed.

Lemma cache_Set_lookup_ne s id k c :
  id <> k -> cache (cache_Set s id c) !! k = cache s !! k.
Proof. apply lookup_insert_ne. Qed.

(** The path of the buckets keeps its promise: what
    [AddInteractionWithId] appends, [GetInteractionsWithId] gives back. *)
Lemma bucket_round_trip `{!ZlibLaws H} s id c data blob :
  cache s !! id = Some c -> free c -> Data c = [] -> zlibWrite data = inl blob ->
  exists s1 s2,
    AddInteractionWithId s id data = Val (s1, None)
    /\ GetInteractionsWithId s1 id = Val (s2, ([data], None)).
Proof.
  intros Hget Hc Hd Hw. eexists _, _. split.
  - by apply AddInteractionWithId_free.
  - erewrite GetInteractionsWithId_free; [|apply cache_Set_lookup|done].
    cbn [Data withData]. rewrite Hd. cbn [app map].
    by rewrite (inflateOne_written data).
Qed.

(** Drain on a record whose mutex is there: only the log changes. *)
Lemma drain_frame s id c secret :
  cache s !! id = Some c -> free c ->
  exists s1,
    GetInteractions s id secret = Val (s1, (map inflateOne (Data c), [], None))
    /\ cache s1 !! id = Some (withData c [])
    /\ (forall k, k <> id -> cache s1 !! k = cache s !! k)
    /\ (Data c = [] -> GetInteractions s id secret = Val (s1, ([], [], None)))
    /\ forall secret', exists s2, GetInteractions s1 id secret' = Val (s2, ([], [], None)).
Proof.
  intros Hget Hc. eexists. split; [by apply GetInteractions_free|].
  split; [apply cache_Set_lookup|].
  split; [intros k Hk; by apply cache_Set_lookup_ne|].
  split.
  - intros Hd. erewrite GetInteractions_free by done. by rewrite Hd.
  - intros secret'. eexists.
    erewrite GetInteractions_free; [|apply cache_Set_lookup|exact Hc]. reflexivity.
Qed.

End WithZlib.

Lemma SetIDPublicKey_fresh s id tok :
  cache s !! id = None ->
  SetIDPublicKey s id tok = Val (cache_Set s id (registered tok), None).
Proof. intros Hget. unfold SetIDPublicKey, cache_Get. by rewrite Hget. Qed.

Lemma SetIDPublicKey_live s id tok c :
  cache s !! id = Some c ->
  SetIDPublicKey s id tok = Val (s, errors_New "session-id provided is invalid").
Proof. intros Hget. unfold SetIDPublicKey, cache_Get. by rewrite Hget. Qed.

(** C7: [SetIDPublicKey] returns an error exactly when the session id
    maps to a record of the store, and then leaves the store as it was;
    on a fresh id it returns nil and puts there a record with an empty log
    and the given token, the other records staying as they were; the same
    id is then refused. *)
Theorem register_iff_fresh s id tok :
  (is_Some (cache s !! id) <->
   exists e, SetIDPublicKey s id tok = Val (s, Some e))
  /\ (cache s !! id = None ->
      exists s' c,
        SetIDPublicKey s id tok = Val (s', None)
        /\ cache s' !! id = Some c /\ Data c = [] /\ token c = tok
        /\ (forall k, k <> id -> cache s' !! k = cache s !! k)
        /\ forall tok', exists e, SetIDPublicKey s' id tok' = Val (s', Some e)).
Proof.
  split; [split|].
  - intros [c Hc]. eexists. by apply (SetIDPublicKey_live s id tok c).
  - intros [e He]. destruct (cache s !! id) as [c|] eqn:Hget; [by eexists|].
    rewrite SetIDPublicKey_fresh in He by done. discriminate He.
  - intros Hget. exists (cache_Set s id (registered tok)), (registered tok).
    split; [by apply SetIDPublicKey_fresh|].
    split; [apply cache_Set_lookup|]. do 2 (split; [done|]).
    split; [intros k Hk; by apply cache_Set_lookup_ne|].
    intros tok'. eexists. eapply SetIDPublicKey_live, cache_Set_lookup.
Qed.

Lemma register_iff_fresh_witness :
  cache (New 0) !! sid = None
  /\ exists s' c,
      SetIDPublicKey (New 0) sid (lit "t0ken") = Val (s', None)
      /\ cache s' !! sid = Some c /\ Data c = [] /\ token c = lit "t0ken"
      /\ (forall k, k <> sid -> cache s' !! k = cache (New 0) !! k)
      /\ forall tok', exists e, SetIDPublicKey s' sid tok' = Val (s', Some e).
Proof.
  assert (H1 : cache (New 0) !! sid = None) by reflexivity.
  exact (conj H1 (proj2 (register_iff_fresh (New 0) sid (lit "t0ken")) H1)).
Defined.

(** C2, at the failing input: a session made by [SetIDPublicKey] has no
    mutex, and [AddInteraction] on it panics on the nil pointer. *)
Theorem append_after_register_panics s id tok data :
  cache s !! id = None ->
  exists s', SetIDPublicKey s id tok = Val (s', None)
             /\ AddInteraction s' id data = Panic.
Proof.
  intros Hget. eexists. split; [by apply SetIDPublicKey_fresh|].
  unfold AddInteraction, cache_Get. by rewrite cache_Set_lookup.
Qed.

Lemma append_after_register_panics_witness :
  cache (New 0) !! sid = None
  /\ exists s', SetIDPublicKey (New 0) sid (lit "t0ken") = Val (s', None)
                /\ AddInteraction s' sid payload = Panic.
Proof.
  assert (H1 : cache (New 0) !! sid = None) by reflexivity.
  exact (conj H1 (append_after_register_panics (New 0) sid (lit "t0ken") payload H1)).
Defined.

(** C3, at the failing input: [RemoveID] never looks at the token. On a
    record with a mutex it returns nil and deletes the record although the
    token differs from the stored one. *)
Theorem remove_ignores_secret s id c tok :
  cache s !! id = Some c -> free c -> tok <> token c ->
  exists s', RemoveID s id tok = Val (s', None) /\ cache s' !! id = None.
Proof.
  intros Hget Hc _. eexists. split; [by eapply RemoveID_free|].
  apply lookup_delete_eq.
Qed.

Lemma remove_ignores_secret_witness :
  cache withBucket !! bucket = Some bucketRecord
  /\ free bucketRecord
  /\ lit "wrong" <> token bucketRecord
  /\ exists s', RemoveID withBucket bucket (lit "wrong") = Val (s', None)
                /\ cache s' !! bucket = None.
Proof.
  assert (H1 : cache withBucket !! bucket = Some bucketRecord)
    by reflexivity.
  assert (H2 : free bucketRecord)
    by reflexivity.
  assert (H3 : lit "wrong"
               <> token bucketRecord)
    by (vm_compute; discriminate).
  exact (conj H1 (conj H2 (conj H3 (remove_ignores_secret _ _ _ _ H1 H2 H3)))).
Defined.

(** The other face of C3: on a session made by [SetIDPublicKey],
    [RemoveID] panics whatever the token. *)
Lemma remove_after_register_panics s id tok tok' :
  cache s !! id = None ->
  exists s', SetIDPublicKey s id tok = Val (s', None) /\ RemoveID s' id tok' = Panic.
Proof.
  intros Hget. eexists. split; [by apply SetIDPublicKey_fresh|].
  unfold RemoveID, cache_Get. by rewrite cache_Set_lookup.
Qed.

Section WithZlib.
Context `{Zlib}.

(** C1, at the failing input: [AddInteraction] stores the payload as it
    is, without compressing it, and the drain, which decompresses, gives
    the empty string for every payload the zlib reader refuses; the
    payload is lost. *)
Theorem append_drain_loses_payload s id c data secret :
  cache s !! id = Some c -> free c -> Data c = [] ->
  readerReset data = false -> data <> [] ->
  exists s1 s2 out,
    AddInteraction s id data = Val (s1, None)
    /\ cache s1 !! id = Some (withData c [data])
    /\ GetInteractions s1 id secret = Val (s2, (out, [], None))
    /\ out = [[]] /\ out <> [data].
Proof.
  intros Hget Hc Hd Hh Hne. eexists _, _, _.
  split; [by apply AddInteraction_free|].
  split; [rewrite cache_Set_lookup, Hd; done|].
  split.
  - erewrite GetInteractions_free; [|apply cache_Set_lookup|exact Hc]. reflexivity.
  - cbn [Data withData]. rewrite Hd. cbn [app map].
    rewrite inflateOne_refused by done. split; [done|]. congruence.
Qed.

(** C8, at the failing input: the drain of a session made by
    [SetIDPublicKey] panics on the nil mutex. *)
Theorem drain_after_register_panics s id tok secret :
  cache s !! id = None ->
  exists s', SetIDPublicKey s id tok = Val (s', None)
             /\ GetInteractions s' id secret = Panic.
Proof.
  intros Hget. eexists. split; [by apply SetIDPublicKey_fresh|].
  unfold GetInteractions, cache_Get. by rewrite cache_Set_lookup.
Qed.

(** C9: the result of decompressing a batch is as long as the batch;
    the result at a position is what the blob at that position gives on
    its own, the empty string when the reader refuses it or the copy
    fails; and replacing one blob changes no result but its own. *)
Theorem decompress_per_item data :
  length (decompressAll data) = length data
  /\ (forall i blob,
         data !! i = Some blob -> decompressAll data !! i = Some (inflateOne blob))
  /\ (forall i blob,
         data !! i = Some blob ->
         readerReset blob = false \/ (ioCopy blob).2 = true ->
         decompressAll data !! i = Some [])
  /\ (forall i j blob',
         i <> j ->
         decompressAll (<[j := blob']> data) !! i = decompressAll data !! i).
Proof.
  rewrite decompressAll_map. split; [apply length_map|].
  split; [|split].
  - intros i blob Hi. by rewrite list_lookup_fmap, Hi.
  - intros i blob Hi Hfail. rewrite list_lookup_fmap, Hi. cbn. f_equal.
    unfold inflateOne. destruct Hfail as [-> | Hfail]; [done|].
    destruct (readerReset blob); [|done].
    destruct (ioCopy blob) as [written failed]. cbn in Hfail. by rewrite Hfail.
  - intros i j blob' Hij. rewrite decompressAll_map, !list_lookup_fmap.
    by rewrite list_lookup_insert_ne.
Qed.

End WithZlib.

Lemma append_drain_loses_payload_witness :
  cache withBucket !! bucket = Some bucketRecord
  /\ free bucketRecord
  /\ Data bucketRecord = []
  /\ @readerReset storedZlib payload = false
  /\ payload <> []
  /\ exists s1 s2 out,
      AddInteraction withBucket bucket payload = Val (s1, None)
      /\ cache s1 !! bucket
         = Some (withData bucketRecord [payload])
      /\ @GetInteractions storedZlib s1 bucket [] = Val (s2, (out, [], None))
      /\ out = [[]] /\ out <> [payload].
Proof.
  assert (H1 : cache withBucket !! bucket = Some bucketRecord)
    by reflexivity.
  assert (H2 : free bucketRecord)
    by reflexivity.
  assert (H3 : Data bucketRecord = [])
    by reflexivity.
  assert (H4 : @readerReset storedZlib payload = false) by reflexivity.
  assert (H5 : payload <> []) by (vm_compute; discriminate).
  exact (conj H1 (conj H2 (conj H3 (conj H4 (conj H5
           (@append_drain_loses_payload storedZlib _ _ _ _ [] H1 H2 H3 H4 H5)))))).
Defined.

Lemma drain_after_register_panics_witness :
  cache (New 0) !! sid = None
  /\ exists s', SetIDPublicKey (New 0) sid (lit "t0ken") = Val (s', None)
                /\ @GetInteractions storedZlib s' sid (lit "t0ken") = Panic.
Proof.
  assert (H1 : cache (New 0) !! sid = None) by reflexivity.
  exact (conj H1 (@drain_after_register_panics storedZlib _ _ _ _ H1)).
Defined.

Lemma decompress_per_item_witness :
  batch !! 1%nat = Some corrupt
  /\ @readerReset storedZlib corrupt = false
  /\ @decompressAll storedZlib batch !! 1%nat = Some []
  /\ length (@decompressAll storedZlib batch) = length batch.
Proof.
  assert (H1 : batch !! 1%nat = Some corrupt) by reflexivity.
  assert (H2 : @readerReset storedZlib corrupt = false) by reflexivity.
  pose proof (@decompress_per_item storedZlib batch) as (Hlen & _ & Hfail & _).
  exact (conj H1 (conj H2 (conj (Hfail 1%nat corrupt H1 (or_introl H2)) Hlen))).
Defined.

Example decompress_batch :
  @decompressAll storedZlib batch = [lit "first"; []; lit "third"].
Proof. vm_compute. reflexivity. Qed.

End StorageFacts.

(** ** HTTP gate *)

Module HTTPFacts.
Import Codec Storage HTTP CodecFacts Fixtures.

Lemma status_WriteHeader w code : status w = None -> status (WriteHeader w code) = Some code.
Proof. unfold WriteHeader. by intros ->. Qed.

Lemma status_setCORS h w : status (setCORS h w) = status w.
Proof. reflexivity. Qed.

Section Gate.
Context `{Zlib}.
Variable jsonEncode : JsonValue -> gostring.
Variable jsonDecode : gostring -> gostring + gostring * gostring.
Variable rootHandler : Handler.
Variable h : HTTPServer.

Abbreviation serveH := (serve jsonEncode jsonDecode rootHandler h).

Abbreviation routeH := (route jsonEncode jsonDecode h).

(** The gated paths are those of the route table. *)
Lemma route_gated path : gated path <-> is_Some (routeH path).
Proof.
  unfold gated, route. split.
  - intros [-> | [-> | [-> | ->]]]; by eexists.
  - intros [handler Hr]. repeat case_decide; try discriminate Hr; tauto.
Qed.

(** Behind every gated route stands the same chain. *)
Lemma router_gated req st handler :
  routeH (Path req) = Some handler ->
  router jsonEncode jsonDecode rootHandler h req st
  = corsMiddleware h (authMiddleware h handler) req st.
Proof. intros Hr. unfold router. by rewrite Hr. Qed.

Lemma checkToken_false req :
  Auth (options h) = true -> Token (options h) <> Authorization req ->
  checkToken h req = false.
Proof.
  intros Ha Ht. unfold checkToken. rewrite Ha. by rewrite bool_decide_eq_false_2.
Qed.

Lemma checkToken_open req : Auth (options h) = false -> checkToken h req = true.
Proof. intros Ha. unfold checkToken. by rewrite Ha. Qed.

(** A preflight request never reaches the gate. *)
Lemma serve_preflight req s :
  gated (Path req) -> Method req = MethodOptions ->
  serveH req s = Val (s, WriteHeader (setCORS h newWriter) StatusNoContent).
Proof.
  intros [handler Hr]%route_gated Hm. unfold serve.
  rewrite (router_gated _ _ handler Hr).
  unfold corsMiddleware. by rewrite decide_True.
Qed.

Lemma serve_refused req s :
  gated (Path req) -> Method req <> MethodOptions ->
  Auth (options h) = true -> Token (options h) <> Authorization req ->
  serveH req s = Val (s, WriteHeader (setCORS h newWriter) StatusUnauthorized).
Proof.
  intros [handler Hr]%route_gated Hm Ha Ht. unfold serve.
  rewrite (router_gated _ _ handler Hr).
  unfold corsMiddleware. rewrite decide_False by done.
  unfold authMiddleware. by rewrite checkToken_false.
Qed.

(** C10, amended: on the routes /register, /deregister, /poll and
    /metrics, when [Auth] is set and the Authorization header differs
    from the token, the store is not touched, and the answer is 401
    Unauthorized unless the method is OPTIONS, which the CORS middleware
    answers with 204 No Content before the gate is reached. When [Auth]
    is not set, the gate lets every request through to the handler
    behind it, whatever the header: a request that is not a preflight is
    answered by the handler of its route. *)
Theorem auth_gate req s :
  gated (Path req) ->
  (Auth (options h) = true -> Token (options h) <> Authorization req ->
   exists w,
     serveH req s = Val (s, w)
     /\ status w = Some (if decide (Method req = MethodOptions)
                         then StatusNoContent else StatusUnauthorized))
  /\ (Auth (options h) = false ->
      checkToken h req = true
      /\ (forall next st, authMiddleware h next req st = next req st)
      /\ (Method req <> MethodOptions ->
          exists handler,
            routeH (Path req) = Some handler
            /\ serveH req s = handler req (s, setCORS h newWriter))).
Proof.
  intros Hp. split.
  - intros Ha Ht. case_decide; eexists.
    + split; [by apply serve_preflight|].
      by apply status_WriteHeader.
    + split; [by apply serve_refused|].
      by apply status_WriteHeader.
  - intros Ha. split; [by apply checkToken_open|]. split.
    + intros next [s' w]. unfold authMiddleware. by rewrite checkToken_open.
    + intros Hm. apply route_gated in Hp as [handler Hr]. exists handler.
      split; [done|]. unfold serve. rewrite (router_gated _ _ handler Hr).
      unfold corsMiddleware. rewrite decide_False by done.
      unfold authMiddleware. by rewrite checkToken_open.
Qed.

End Gate.

(** C10, as stated: the preflight request with a wrong token is not
    answered 401. *)
Lemma preflight_not_unauthorized :
  ~ @alwaysUnauthorized storedZlib noEncode noDecode noRoot guarded preflight (New 0).
Proof.
  intros Hclaim.
  destruct Hclaim as (w & Hserve & Hstatus).
  - left. reflexivity.
  - reflexivity.
  - vm_compute. discriminate.
  - rewrite (@serve_preflight storedZlib) in Hserve by (try reflexivity; by left).
    injection Hserve as <-.
    rewrite status_WriteHeader in Hstatus by done.
    discriminate Hstatus.
Qed.

Lemma auth_gate_witness :
  gated (Path guessing)
  /\ Auth (options guarded) = true
  /\ Token (options guarded) <> Authorization guessing
  /\ exists w,
      @serve storedZlib noEncode noDecode noRoot guarded guessing (New 0)
      = Val (New 0, w)
      /\ status w = Some (if decide (Method guessing = MethodOptions)
                          then StatusNoContent else StatusUnauthorized).
Proof.
  assert (H1 : gated (Path guessing)) by (left; reflexivity).
  assert (H2 : Auth (options guarded) = true) by reflexivity.
  assert (H3 : Token (options guarded) <> Authorization guessing)
    by (vm_compute; discriminate).
  exact (conj H1 (conj H2 (conj H3
    (proj1 (@auth_gate storedZlib noEncode noDecode noRoot guarded guessing (New 0) H1)
           H2 H3)))).
Defined.

Example guessing_refused :
  status <$> (snd <$> match @serve storedZlib noEncode noDecode noRoot guarded guessing (New 0)
                      with Val st => Some st | _ => None end)
  = Some (Some StatusUnauthorized).
Proof. vm_compute. reflexivity. Qed.

End HTTPFacts.

(** ** The identifier and its reflection, on every host *)

Module IdentifierFacts.
Import Utf8 Server Fixtures GoStringFacts Utf8Facts ServerFacts.

Lemma Join_cons p ps : ps <> [] -> Join (p :: ps) = p ++ dot :: Join ps.
Proof. by destruct ps. Qed.

Lemma snoc_nonempty {A} (pre : list A) l post : pre ++ l :: post <> [].
Proof. by destruct pre. Qed.

Lemma Join_snoc pre l post :
  exists rest,
    Join (pre ++ l :: post) = Join (pre ++ [l]) ++ rest
    /\ (rest = [] \/ exists r, rest = dot :: r).
Proof.
  induction pre as [|p pre IH]; cbn [app].
  - destruct post as [|q post].
    + exists []. split; [by rewrite app_nil_r | by left].
    + eexists. split; [by rewrite Join_cons | right; by eexists].
  - destruct IH as (rest & Hj & Hrest). exists rest. split; [|done].
    rewrite !Join_cons by apply snoc_nonempty.
    rewrite Hj. by rewrite <- app_assoc.
Qed.

Lemma Join_ends pre l : exists before, Join (pre ++ [l]) = before ++ l.
Proof.
  induction pre as [|p pre [before Hb]]; cbn [app].
  - by exists [].
  - exists (p ++ dot :: before).
    rewrite Join_cons by apply snoc_nonempty. rewrite Hb. by rewrite <- app_assoc.
Qed.

Lemma Split_label host pre l post :
  Split host = pre ++ l :: post -> dot ∉ l.
Proof.
  intros Hsplit. pose proof (Split_no_dot host) as Hall. rewrite Hsplit in Hall.
  apply Forall_app in Hall as [_ Hall]. by inversion Hall.
Qed.

Lemma hasWidth_dec parts : {Exists hasWidth parts} + {Forall notWidth parts}.
Proof.
  destruct (@Exists_dec _ hasWidth (fun q => Nat.eq_dec (length q) idWidth) parts)
    as [Hex | Hnone]; [by left | right].
  by apply Forall_Exists_neg in Hnone.
Qed.

Lemma notWidth_not_Exists parts : Forall notWidth parts -> ~ Exists hasWidth parts.
Proof. intros Hall. by apply Forall_Exists_neg. Qed.

(** X1: extraction is total and says what it found. For every host it
    returns without panic; it reports found exactly when some label has
    length 33, and otherwise gives empty outputs; what it finds is a label
    of length 33 without a dot, the correlation ID is its first 20
    characters, the full ID ends with the label, and the host is the full
    ID followed by nothing or by a dot and the rest. *)
Theorem extract_total host :
  exists e,
    ExtractIdentifier host = Some e
    /\ (found e = true <-> Exists hasWidth (Split host))
    /\ (found e = false -> e = notFound)
    /\ (found e = true ->
        hasWidth (uniqueID e) /\ (dot ∉ uniqueID e)
        /\ correlationID e = take 20 (uniqueID e)
        /\ length (correlationID e) = 20%nat
        /\ (exists before, fullID e = before ++ uniqueID e)
        /\ exists rest, host = fullID e ++ rest
                        /\ (rest = [] \/ exists r, rest = dot :: r)).
Proof.
  destruct (hasWidth_dec (Split host)) as [Hex | Hnone].
  - destruct (last_label _ Hex) as (pre & l & post & Hsplit & Hl & Hpost).
    exists (extractedAt pre l).
    split; [by apply (ExtractIdentifier_last host pre l post)|].
    split; [done|]. split; [done|]. intros _. cbn.
    split; [done|]. split; [by eapply Split_label|]. split; [done|].
    split; [rewrite length_take, Hl; done|].
    split; [apply Join_ends|].
    destruct (Join_snoc pre l post) as (rest & Hj & Hrest).
    exists rest. split; [|done].
    by rewrite <- Hj, <- Hsplit, Join_Split.
  - exists notFound. split; [by apply ExtractIdentifier_none|].
    split; [|done]. split; [done|]. intros Hex.
    by apply notWidth_not_Exists in Hnone.
Qed.

Lemma slicerunetostring_length rs : (length rs <= length (slicerunetostring rs))%nat.
Proof.
  unfold slicerunetostring. induction rs as [|r rs IH]; [done|].
  cbn [map concat length]. rewrite length_app.
  pose proof (encoderune_length r). lia.
Qed.

Lemma stringtoslicerune_nonempty s : s <> [] -> stringtoslicerune s <> [].
Proof.
  unfold stringtoslicerune. destruct s as [|c s]; [done|]. intros _.
  cbn [length rangeRunes]. by destruct (decoderune (c :: s)).
Qed.

Lemma reflected_nonempty l :
  l <> [] -> slicerunetostring (rev (stringtoslicerune l)) <> [].
Proof.
  intros Hl Hnil. apply stringtoslicerune_nonempty in Hl.
  pose proof (slicerunetostring_length (rev (stringtoslicerune l))) as Hlen.
  rewrite Hnil, length_rev in Hlen. cbn in Hlen.
  destruct (stringtoslicerune l); [done | simpl in Hlen; lia].
Qed.

(** X2: the reflection follows the extraction. For every host both
    return without panic; when extraction finds an identifier the
    reflection is that identifier with its runes reversed, and is not
    empty; when extraction finds none the reflection is the empty string. *)
Theorem reflection_follows_extraction host :
  exists e r,
    ExtractIdentifier host = Some e
    /\ URLReflection host = Some r
    /\ (found e = true ->
        r = slicerunetostring (rev (stringtoslicerune (uniqueID e))) /\ r <> [])
    /\ (found e = false -> r = []).
Proof.
  destruct (hasWidth_dec (Split host)) as [Hex | Hnone].
  - destruct (last_label _ Hex) as (pre & l & post & Hsplit & Hl & Hpost).
    exists (extractedAt pre l), (slicerunetostring (rev (stringtoslicerune l))).
    split; [by apply (ExtractIdentifier_last host pre l post)|].
    split; [by apply (URLReflection_last host pre l post)|].
    split; [|done]. intros _. split; [done|].
    by apply reflected_nonempty, hasWidth_nonempty.
  - exists notFound, []. split; [by apply ExtractIdentifier_none|].
    split; [|done]. unfold URLReflection. by rewrite scanRandomID_none.
Qed.

Lemma Split_cons_label l d : dot ∉ l -> Split (l ++ dot :: d) = l :: Split d.
Proof.
  induction l as [|c l IH]; intros Hl; cbn [app Split].
  - by rewrite decide_True.
  - rewrite decide_False by (intros ->; apply Hl; by left).
    rewrite IH; [done|]. intros Hin. apply Hl. by right.
Qed.

Lemma URLReflection_ascii_label l d :
  hasWidth l -> Forall isASCII l -> dot ∉ l -> Forall notWidth (Split d) ->
  URLReflection (l ++ dot :: d) = Some (rev l).
Proof.
  intros Hl Hascii Hdot Hd.
  rewrite (URLReflection_last (l ++ dot :: d) [] l (Split d)); [|by apply Split_cons_label|done..].
  rewrite stringtoslicerune_ascii by done. rewrite <- map_rev.
  rewrite slicerunetostring_ascii; [done|]. by apply Forall_rev.
Qed.

(** X3: reflecting twice gives the identifier back. For an identifier of
    33 ASCII characters without a dot, the reflection of a host that starts
    with it is the identifier reversed, and the reflection of a host that
    starts with that reversal is the identifier again. *)
Theorem reflection_involution l d d' :
  hasWidth l -> Forall isASCII l -> dot ∉ l ->
  Forall notWidth (Split d) -> Forall notWidth (Split d') ->
  URLReflection (l ++ dot :: d) = Some (rev l)
  /\ URLReflection (rev l ++ dot :: d') = Some l.
Proof.
  intros Hl Hascii Hdot Hd Hd'. split; [by apply URLReflection_ascii_label|].
  rewrite URLReflection_ascii_label; [by rewrite rev_involutive| | | |done].
  - unfold hasWidth. by rewrite length_rev.
  - by apply Forall_rev.
  - intros Hin. apply Hdot. apply list_elem_of_In in Hin. apply list_elem_of_In.
    by apply in_rev.
Qed.

Lemma reflection_involution_witness :
  hasWidth alphabet /\ Forall isASCII alphabet /\ (dot ∉ alphabet)
  /\ Forall notWidth (Split (lit "example.com"))
  /\ Forall notWidth (Split (lit "oast.site"))
  /\ URLReflection (alphabet ++ dot :: lit "example.com") = Some (rev alphabet)
  /\ URLReflection (rev alphabet ++ dot :: lit "oast.site") = Some alphabet.
Proof.
  assert (H1 : hasWidth alphabet) by reflexivity.
  assert (H2 : Forall isASCII alphabet) by (repeat constructor; vm_compute; reflexivity).
  assert (H3 : dot ∉ alphabet).
  { intros Hin. apply list_elem_of_In in Hin. vm_compute in Hin.
    repeat (destruct Hin as [Hin | Hin]; [discriminate Hin|]). exact Hin. }
  assert (H4 : Forall notWidth (Split (lit "example.com")))
    by (repeat constructor; vm_compute; discriminate).
  assert (H5 : Forall notWidth (Split (lit "oast.site")))
    by (repeat constructor; vm_compute; discriminate).
  exact (conj H1 (conj H2 (conj H3 (conj H4 (conj H5
           (reflection_involution alphabet _ _ H1 H2 H3 H4 H5)))))).
Defined.

End IdentifierFacts.

(** ** The store as a whole *)

Module CacheFacts.
Import Codec Storage Cache Fixtures CodecFacts StorageFacts.

(** X4: an operation on an id the store does not hold creates nothing.
    [AddInteraction], [AddInteractionWithId], [GetInteractions],
    [GetInteractionsWithId], [RemoveID] and [GetCacheItem] each return an
    error, give no data, and leave the store exactly as it was. *)
Theorem unknown_id_is_an_error `{Zlib} s id data secret :
  cache s !! id = None ->
  (exists e, AddInteraction s id data = Val (s, Some e))
  /\ (exists e, AddInteractionWithId s id data = Val (s, Some e))
  /\ (exists e, GetInteractions s id secret = Val (s, ([], [], Some e)))
  /\ (exists e, GetInteractionsWithId s id = Val (s, ([], Some e)))
  /\ (exists e, RemoveID s id secret = Val (s, Some e))
  /\ (exists e, GetCacheItem s id = Val (s, (None, Some e))).
Proof.
  intros Hget.
  unfold AddInteraction, AddInteractionWithId, GetInteractions, GetInteractionsWithId,
    RemoveID, GetCacheItem, cache_Get.
  rewrite Hget. repeat split; by eexists.
Qed.

Lemma unknown_id_is_an_error_witness :
  cache withBucket !! sid = None
  /\ (exists e, AddInteraction withBucket sid payload = Val (withBucket, Some e))
  /\ (exists e, @AddInteractionWithId storedZlib withBucket sid payload
                = Val (withBucket, Some e))
  /\ (exists e, @GetInteractions storedZlib withBucket sid (lit "t0ken")
                = Val (withBucket, ([], [], Some e)))
  /\ (exists e, @GetInteractionsWithId storedZlib withBucket sid
                = Val (withBucket, ([], Some e)))
  /\ (exists e, RemoveID withBucket sid (lit "t0ken") = Val (withBucket, Some e))
  /\ (exists e, GetCacheItem withBucket sid = Val (withBucket, (None, Some e))).
Proof.
  assert (H1 : cache withBucket !! sid = None) by reflexivity.
  exact (conj H1 (@unknown_id_is_an_error storedZlib withBucket sid payload (lit "t0ken") H1)).
Defined.

Section WithZlib.
Context `{Zlib}.

Lemma withData_free c d : free c -> free (withData c d).
Proof. done. Qed.

Lemma appendEach_free payloads : forall s id c,
  cache s !! id = Some c -> free c ->
  Forall (fun d => exists blob, zlibWrite d = inl blob) payloads ->
  exists blobs,
    Forall2 (fun d blob => zlibWrite d = inl blob) payloads blobs
    /\ appendEach s id payloads = Val (cache_Set s id (withData c (Data c ++ blobs))).
Proof.
  induction payloads as [|d payloads IH]; intros s id c Hget Hc Hall.
  - exists []. split; [constructor|]. cbn. rewrite app_nil_r.
    unfold cache_Set, withCache. destruct s as [m dr ttl]; cbn in *.
    do 2 f_equal. rewrite insert_id; [done|]. by destruct c.
  - inversion Hall as [|? ? [blob Hw] Hrest]; subst.
    destruct (IH (cache_Set s id (withData c (Data c ++ [blob]))) id
                (withData c (Data c ++ [blob]))) as (blobs & Hblobs & Happ);
      [apply cache_Set_lookup | done | done |].
    exists (blob :: blobs). split; [by constructor|].
    cbn [appendEach]. rewrite (AddInteractionWithId_free s id c d blob) by done.
    cbn [mbind res_bind]. rewrite Happ. cbn [Data withData]. f_equal.
    unfold cache_Set, withCache. cbn. f_equal.
    rewrite insert_insert_eq. by rewrite <- app_assoc.
Qed.

Lemma inflate_written `{!ZlibLaws H} payloads blobs :
  Forall2 (fun d blob => zlibWrite d = inl blob) payloads blobs ->
  map inflateOne blobs = payloads.
Proof.
  induction 1 as [|d blob payloads blobs Hw _ IH]; [done|].
  cbn [map]. by rewrite (inflateOne_written d), IH.
Qed.

(** X5: a bucket gives back what was put in it, in order. After
    [AddInteractionWithId] has been called on a record with a free mutex
    once for each payload of a list, the writer failing for none, one
    [GetInteractionsWithId] returns what the log held before followed by the
    payloads in the order of the calls, and leaves the log empty. *)
Theorem bucket_fifo `{!ZlibLaws H} s id c payloads :
  cache s !! id = Some c -> free c ->
  Forall (fun d => exists blob, zlibWrite d = inl blob) payloads ->
  exists s1 s2,
    appendEach s id payloads = Val s1
    /\ GetInteractionsWithId s1 id
       = Val (s2, (map inflateOne (Data c) ++ payloads, None))
    /\ cache s2 !! id = Some (withData c []).
Proof.
  intros Hget Hc Hall.
  destruct (appendEach_free payloads s id c Hget Hc Hall) as (blobs & Hblobs & Happ).
  eexists _, _. split; [exact Happ|].
  erewrite GetInteractionsWithId_free; [|apply cache_Set_lookup|done].
  cbn [Data withData]. rewrite map_app, (inflate_written payloads blobs) by done.
  split; [reflexivity|]. apply cache_Set_lookup.
Qed.

(** X6: what a drain returned is gone, what is appended afterwards comes
    with the next drain. On a record with a free mutex and an empty log:
    append a, drain gives [a]; append b, drain gives [b]; a further drain
    gives the empty sequence and no error. *)
Theorem drain_exactly_once `{!ZlibLaws H} s id c a b blobA blobB :
  cache s !! id = Some c -> free c -> Data c = [] ->
  zlibWrite a = inl blobA -> zlibWrite b = inl blobB ->
  exists s1 s2 s3 s4 s5,
    AddInteractionWithId s id a = Val (s1, None)
    /\ GetInteractionsWithId s1 id = Val (s2, ([a], None))
    /\ AddInteractionWithId s2 id b = Val (s3, None)
    /\ GetInteractionsWithId s3 id = Val (s4, ([b], None))
    /\ GetInteractionsWithId s4 id = Val (s5, ([], None)).
Proof.
  intros Hget Hc Hd Ha Hb. eexists _, _, _, _, _.
  split; [by apply AddInteractionWithId_free|].
  split.
  { erewrite GetInteractionsWithId_free; [|apply cache_Set_lookup|done].
    cbn [Data withData]. rewrite Hd. cbn [app map].
    by rewrite (inflateOne_written a). }
  split.
  { eapply AddInteractionWithId_free; [apply cache_Set_lookup|done|done]. }
  split.
  { erewrite GetInteractionsWithId_free; [|apply cache_Set_lookup|done].
    cbn [Data withData app map]. by rewrite (inflateOne_written b). }
  erewrite GetInteractionsWithId_free; [|apply cache_Set_lookup|done]. reflexivity.
Qed.

(** X7: [AddInteractionWithId] changes the log of its record and nothing
    else. On a record with a free mutex, when the writer gives a blob the
    call returns nil, the log is the old one with the blob at its end, the
    token and the mutex of the record and every other record are as
    before, and the store holds as many records; when the writer fails
    the call returns that error and the store is as it was. *)
Theorem bucket_append_frame s id c data :
  cache s !! id = Some c -> free c ->
  (forall blob, zlibWrite data = inl blob ->
     exists s1 c1,
       AddInteractionWithId s id data = Val (s1, None)
       /\ cache s1 !! id = Some c1
       /\ Data c1 = Data c ++ [blob] /\ token c1 = token c /\ free c1
       /\ (forall k, k <> id -> cache s1 !! k = cache s !! k)
       /\ size (cache s1) = size (cache s))
  /\ (forall err, zlibWrite data = inr err ->
        AddInteractionWithId s id data = Val (s, Some err)).
Proof.
  intros Hget Hc. split.
  - intros blob Hw. eexists _, _.
    split; [by apply AddInteractionWithId_free|].
    split; [apply cache_Set_lookup|]. do 3 (split; [done|]).
    split; [intros k Hk; by apply cache_Set_lookup_ne|].
    cbn. apply map_size_insert_Some. by eexists.
  - intros err Hw. unfold AddInteractionWithId, cache_Get. by rewrite Hget, Hw.
Qed.

End WithZlib.

Lemma bucket_fifo_witness :
  ZlibLaws storedZlib
  /\ cache withBucket !! bucket = Some bucketRecord
  /\ free bucketRecord
  /\ Forall (fun d => exists blob, @zlibWrite storedZlib d = inl blob)
            [lit "first"; lit "second"]
  /\ exists s1 s2,
      @appendEach storedZlib withBucket bucket [lit "first"; lit "second"] = Val s1
      /\ @GetInteractionsWithId storedZlib s1 bucket
         = Val (s2, (map (@inflateOne storedZlib) (Data bucketRecord)
                       ++ [lit "first"; lit "second"], None))
      /\ cache s2 !! bucket = Some (withData bucketRecord []).
Proof.
  assert (H1 : cache withBucket !! bucket = Some bucketRecord) by reflexivity.
  assert (H2 : free bucketRecord) by reflexivity.
  assert (H3 : Forall (fun d => exists blob, @zlibWrite storedZlib d = inl blob)
                      [lit "first"; lit "second"])
    by (repeat constructor; eexists; reflexivity).
  exact (conj storedZlib_laws (conj H1 (conj H2 (conj H3
           (@bucket_fifo storedZlib storedZlib_laws _ _ _ _ H1 H2 H3))))).
Defined.

Lemma drain_exactly_once_witness :
  ZlibLaws storedZlib
  /\ cache withBucket !! bucket = Some bucketRecord
  /\ free bucketRecord
  /\ Data bucketRecord = []
  /\ @zlibWrite storedZlib (lit "first") = inl (storedWrite (lit "first"))
  /\ @zlibWrite storedZlib (lit "second") = inl (storedWrite (lit "second"))
  /\ exists s1 s2 s3 s4 s5,
      @AddInteractionWithId storedZlib withBucket bucket (lit "first") = Val (s1, None)
      /\ @GetInteractionsWithId storedZlib s1 bucket = Val (s2, ([lit "first"], None))
      /\ @AddInteractionWithId storedZlib s2 bucket (lit "second") = Val (s3, None)
      /\ @GetInteractionsWithId storedZlib s3 bucket = Val (s4, ([lit "second"], None))
      /\ @GetInteractionsWithId storedZlib s4 bucket = Val (s5, ([], None)).
Proof.
  assert (H1 : cache withBucket !! bucket = Some bucketRecord) by reflexivity.
  assert (H2 : free bucketRecord) by reflexivity.
  assert (H3 : Data bucketRecord = []) by reflexivity.
  assert (H4 : @zlibWrite storedZlib (lit "first") = inl (storedWrite (lit "first")))
    by reflexivity.
  assert (H5 : @zlibWrite storedZlib (lit "second") = inl (storedWrite (lit "second")))
    by reflexivity.
  exact (conj storedZlib_laws (conj H1 (conj H2 (conj H3 (conj H4 (conj H5
           (@drain_exactly_once storedZlib storedZlib_laws _ _ _ _ _ _ _
              H1 H2 H3 H4 H5))))))).
Defined.

Lemma bucket_append_frame_witness :
  cache withBucket !! bucket = Some bucketRecord
  /\ free bucketRecord
  /\ @zlibWrite storedZlib payload = inl (storedWrite payload)
  /\ exists s1 c1,
      @AddInteractionWithId storedZlib withBucket bucket payload = Val (s1, None)
      /\ cache s1 !! bucket = Some c1
      /\ Data c1 = Data bucketRecord ++ [storedWrite payload]
      /\ token c1 = token bucketRecord /\ free c1
      /\ (forall k, k <> bucket -> cache s1 !! k = cache withBucket !! k)
      /\ size (cache s1) = size (cache withBucket).
Proof.
  assert (H1 : cache withBucket !! bucket = Some bucketRecord) by reflexivity.
  assert (H2 : free bucketRecord) by reflexivity.
  assert (H3 : @zlibWrite storedZlib payload = inl (storedWrite payload)) by reflexivity.
  exact (conj H1 (conj H2 (conj H3
           (proj1 (@bucket_append_frame storedZlib _ _ _ payload H1 H2) _ H3)))).
Defined.

(** X8: [SetID] never fails and starts the bucket afresh. Whatever the
    store held under the id, afterwards the id maps to a record with an
    empty log, a free mutex and an empty token, the other records are as
    before, and a drain of the id returns the empty sequence: a log kept
    under the id before the call is discarded. *)
Theorem SetID_starts_afresh `{Zlib} s id :
  exists s1 s2 c,
    SetID s id = Val (s1, None)
    /\ cache s1 !! id = Some c
    /\ Data c = [] /\ token c = [] /\ free c
    /\ (forall k, k <> id -> cache s1 !! k = cache s !! k)
    /\ GetInteractionsWithId s1 id = Val (s2, ([], None)).
Proof.
  eexists _, _, _. split; [reflexivity|].
  split; [apply cache_Set_lookup|]. do 3 (split; [done|]).
  split; [intros k Hk; by apply cache_Set_lookup_ne|].
  erewrite GetInteractionsWithId_free; [|apply cache_Set_lookup|done]. reflexivity.
Qed.

(** X9: removal frees the id. When [RemoveID] is called with the token
    of a record that has a free mutex, it returns nil; afterwards the id is
    unknown to the store, so that an append to it is an error and a
    registration of it succeeds with any token; the other records are as
    before and the store holds one record less. *)
Theorem removal_frees_the_id s id c tok :
  cache s !! id = Some c -> free c -> tok = token c ->
  exists s1,
    RemoveID s id tok = Val (s1, None)
    /\ cache s1 !! id = None
    /\ (forall k, k <> id -> cache s1 !! k = cache s !! k)
    /\ S (size (cache s1)) = size (cache s)
    /\ (forall data, exists e, AddInteraction s1 id data = Val (s1, Some e))
    /\ (forall tok', exists s2, SetIDPublicKey s1 id tok' = Val (s2, None)).
Proof.
  intros Hget Hc _. exists (cache_Delete s id).
  assert (Hgone : cache (cache_Delete s id) !! id = None) by apply lookup_delete_eq.
  split; [by eapply RemoveID_free|]. split; [done|].
  split; [intros k Hk; by apply lookup_delete_ne|].
  split.
  { cbn. rewrite map_size_delete_Some by by eexists.
    assert (size (cache s) <> 0%nat); [|lia].
    intros Hz. apply map_size_empty_inv in Hz. rewrite Hz in Hget.
    by rewrite lookup_empty in Hget. }
  split.
  - intros data. unfold AddInteraction, cache_Get. rewrite Hgone. by eexists.
  - intros tok'. eexists. by apply SetIDPublicKey_fresh.
Qed.

Lemma removal_frees_the_id_witness :
  cache withBucket !! bucket = Some bucketRecord
  /\ free bucketRecord
  /\ [] = token bucketRecord
  /\ exists s1,
      RemoveID withBucket bucket [] = Val (s1, None)
      /\ cache s1 !! bucket = None
      /\ (forall k, k <> bucket -> cache s1 !! k = cache withBucket !! k)
      /\ S (size (cache s1)) = size (cache withBucket)
      /\ (forall data, exists e, AddInteraction s1 bucket data = Val (s1, Some e))
      /\ (forall tok', exists s2, SetIDPublicKey s1 bucket tok' = Val (s2, None)).
Proof.
  assert (H1 : cache withBucket !! bucket = Some bucketRecord) by reflexivity.
  assert (H2 : free bucketRecord) by reflexivity.
  assert (H3 : [] = token bucketRecord) by reflexivity.
  exact (conj H1 (conj H2 (conj H3 (removal_frees_the_id _ _ _ _ H1 H2 H3)))).
Defined.

(** X10: the metrics count the records. [GetCacheMetrics] leaves every
    record as it was and reports as [Sessions] the number of ids the store
    holds: a registration of a fresh id raises the number by one, a
    registration that is refused leaves it as it was. *)
Theorem sessions_count_records s id tok :
  cache (GetCacheMetrics s).1 = cache s
  /\ Sessions (GetCacheMetrics s).2 = size (cache s)
  /\ exists s1 e,
      SetIDPublicKey s id tok = Val (s1, e)
      /\ Sessions (GetCacheMetrics s1).2
         = match cache s !! id with
           | Some _ => Sessions (GetCacheMetrics s).2
           | None => S (Sessions (GetCacheMetrics s).2)
           end.
Proof.
  split; [done|]. split; [done|].
  destruct (cache s !! id) as [c|] eqn:Hget.
  - eexists _, _. split; [by eapply SetIDPublicKey_live|]. done.
  - eexists _, _. split; [by apply SetIDPublicKey_fresh|].
    cbn. by apply map_size_insert_None.
Qed.

(** No record locked is a property of records put and of keys deleted. *)
Lemma unlocked_Set s id c :
  unlocked s -> dataMutex c <> Some Locked -> unlocked (cache_Set s id c).
Proof.
  intros Hs Hc k c' Hk. cbn in Hk.
  destruct (decide (id = k)) as [->|Hne].
  - rewrite lookup_insert_eq in Hk. by injection Hk as <-.
  - rewrite lookup_insert_ne in Hk by done. by eapply Hs.
Qed.

Lemma unlocked_Delete s id : unlocked s -> unlocked (cache_Delete s id).
Proof.
  intros Hs k c Hk. cbn in Hk.
  destruct (decide (id = k)) as [->|Hne].
  - by rewrite lookup_delete_eq in Hk.
  - rewrite lookup_delete_ne in Hk by done. by eapply Hs.
Qed.

(** A call keeps the store free of locked records and does not block. *)

Section Locks.
Context `{Zlib}.

(** X11: every lock taken is given back. On a store in which no record
    is locked, no operation of the store blocks, and each one that returns
    leaves a store in which no record is locked. *)
Theorem locks_are_released s id tok data :
  unlocked s ->
  releases (SetIDPublicKey s id tok)
  /\ releases (SetID s id)
  /\ releases (AddInteraction s id data)
  /\ releases (AddInteractionWithId s id data)
  /\ releases (GetInteractions s id tok)
  /\ releases (GetInteractionsWithId s id)
  /\ releases (RemoveID s id tok)
  /\ releases (GetCacheItem s id).
Proof.
  intros Hs.
  assert (Hsame : forall A (a : A), releases (Val (s, a))).
  { intros A a. split; [done|]. by intros ? ? [= <- _]. }
  assert (Hput : forall A (a : A) c,
            dataMutex c <> Some Locked -> releases (Val (cache_Set s id c, a))).
  { intros A a c Hc. split; [done|]. intros ? ? [= <- _]. by apply unlocked_Set. }
  assert (Hnone : forall A, @releases A Panic).
  { intros A. split; [done|]. intros ? ? [=]. }
  unfold SetIDPublicKey, SetID, AddInteraction, AddInteractionWithId, GetInteractions,
    GetInteractionsWithId, RemoveID, GetCacheItem, CorrelationData_GetInteractions,
    cache_Get.
  destruct (cache s !! id) as [c|] eqn:Hget; cbn [mret res_ret];
    [|repeat split; solve [by apply Hsame | by apply Hput]].
  pose proof (Hs id c Hget) as Hfree.
  destruct c as [d [[|]|] t]; cbn in Hfree |- *; [| done |].
  - destruct (zlibWrite data) as [blob|err].
    + repeat split; try (by apply Hsame); try (by apply Hput);
        try (by intros ? ? [= <- _]; apply unlocked_Set).
      * done.
      * intros ? ? [= <- _]. by apply unlocked_Delete, unlocked_Set.
    + repeat split; try (by apply Hsame); try (by apply Hput);
        try (by intros ? ? [= <- _]; apply unlocked_Set).
      * done.
      * intros ? ? [= <- _]. by apply unlocked_Delete, unlocked_Set.
  - destruct (zlibWrite data) as [blob|err];
      repeat split; solve [by apply Hsame | by apply Hput | by apply Hnone
                          | done | intros ? ? [=]].
Qed.

End Locks.

Lemma locks_are_released_witness :
  unlocked withBucket
  /\ releases (SetIDPublicKey withBucket bucket [])
  /\ releases (SetID withBucket bucket)
  /\ releases (AddInteraction withBucket bucket payload)
  /\ releases (@AddInteractionWithId storedZlib withBucket bucket payload)
  /\ releases (@GetInteractions storedZlib withBucket bucket [])
  /\ releases (@GetInteractionsWithId storedZlib withBucket bucket)
  /\ releases (RemoveID withBucket bucket [])
  /\ releases (GetCacheItem withBucket bucket).
Proof.
  assert (H1 : unlocked withBucket).
  { intros k c Hk. unfold withBucket in Hk. cbn in Hk.
    destruct (decide (bucket = k)) as [<-|Hne].
    - rewrite lookup_insert_eq in Hk. injection Hk as <-. discriminate.
    - rewrite lookup_insert_ne in Hk by done. by rewrite lookup_empty in Hk. }
  exact (conj H1 (@locks_are_released storedZlib withBucket bucket [] payload H1)).
Defined.

End CacheFacts.

(** ** The endpoints behind the gate *)

Module EndpointFacts.
Import Server Codec Storage HTTP Cache Endpoint Scenes Fixtures CodecFacts StorageFacts HTTPFacts.

Section Endpoints.
Context `{Zlib}.
Variable jsonEncode : JsonValue -> gostring.
Variable jsonDecode : gostring -> gostring + gostring * gostring.
Variable rootHandler : Handler.
Variable h : HTTPServer.

Abbreviation serveE := (serve jsonEncode jsonDecode rootHandler h).
Abbreviation routeE := (route jsonEncode jsonDecode h).

(** A request that is no preflight and passes the gate reaches the
    handler of its route, on a writer that has the CORS header. *)
Lemma serve_passes req s handler :
  routeE (Path req) = Some handler ->
  Method req <> MethodOptions -> checkToken h req = true ->
  serveE req s = handler req (s, setCORS h newWriter).
Proof.
  intros Hr Hm Hc. unfold serve, router. rewrite Hr.
  unfold corsMiddleware. rewrite decide_False by done.
  unfold authMiddleware. by rewrite Hc.
Qed.

Lemma jsonBody_answered key value code :
  answered jsonEncode (jsonBody jsonEncode (setCORS h newWriter) key value code)
           code key value.
Proof. done. Qed.

(** X12: the registration endpoint. A request to /register that is no
    preflight and passes the gate is answered 400 with an error body, the
    store untouched, when its body does not decode or when the session id
    is already in the store; otherwise it is answered 200 with a message
    and the store holds, under the session id, a record with an empty log
    and the token of the request, all other records as before. *)
Theorem register_endpoint req s :
  Path req = lit "/register" ->
  Method req <> MethodOptions -> checkToken h req = true ->
  match jsonDecode (Body req) with
  | inl err =>
      exists w, serveE req s = Val (s, w)
        /\ answered jsonEncode w StatusBadRequest "error" (lit "could not decode json body: " ++ err)
  | inr (tok, sid) =>
      match cache s !! sid with
      | Some _ =>
          exists w, serveE req s = Val (s, w)
            /\ answered jsonEncode w StatusBadRequest "error"
                 (lit "could not set id and public key: session-id provided is invalid")
      | None =>
          exists s' w c, serveE req s = Val (s', w)
            /\ answered jsonEncode w StatusOK "message" (lit "registration successful")
            /\ cache s' !! sid = Some c /\ Data c = [] /\ token c = tok
            /\ forall k, k <> sid -> cache s' !! k = cache s !! k
      end
  end.
Proof.
  intros Hp Hm Hc.
  rewrite (serve_passes req s (registerHandler jsonEncode jsonDecode))
    by (try done; unfold route; by rewrite Hp).
  unfold registerHandler.
  destruct (jsonDecode (Body req)) as [err | [tok sid]].
  - eexists. split; [reflexivity|]. apply jsonBody_answered.
  - destruct (cache s !! sid) as [c|] eqn:Hget.
    + rewrite (SetIDPublicKey_live s sid tok c) by done.
      eexists. split; [reflexivity|]. apply jsonBody_answered.
    + rewrite SetIDPublicKey_fresh by done.
      eexists _, _, _. split; [reflexivity|].
      split; [apply jsonBody_answered|].
      split; [apply cache_Set_lookup|]. do 2 (split; [done|]).
      intros k Hk. by apply cache_Set_lookup_ne.
Qed.

(** X13: what the poll endpoint refuses. A request to /poll that is no
    preflight and passes the gate is answered 400 with an error body, the
    store untouched, when it has no id, when it has no secret, and when
    its id is not in the store. *)
Theorem poll_refusals req s :
  Path req = lit "/poll" ->
  Method req <> MethodOptions -> checkToken h req = true ->
  (QueryID req = [] ->
   exists w, serveE req s = Val (s, w)
     /\ answered jsonEncode w StatusBadRequest "error" (lit "no id specified for poll"))
  /\ (QueryID req <> [] -> QuerySecret req = [] ->
      exists w, serveE req s = Val (s, w)
        /\ answered jsonEncode w StatusBadRequest "error" (lit "no secret specified for poll"))
  /\ (QueryID req <> [] -> QuerySecret req <> [] -> cache s !! QueryID req = None ->
      exists w, serveE req s = Val (s, w)
        /\ answered jsonEncode w StatusBadRequest "error"
             (lit "could not get interactions: could not get correlation-id from cache")).
Proof.
  intros Hp Hm Hc.
  rewrite (serve_passes req s (pollHandler jsonEncode h))
    by (try done; unfold route; rewrite Hp; done).
  unfold pollHandler. split; [|split].
  - intros ->. rewrite decide_True by done.
    eexists. split; [reflexivity|]. apply jsonBody_answered.
  - intros Hid ->. rewrite decide_False, decide_True by done.
    eexists. split; [reflexivity|]. apply jsonBody_answered.
  - intros Hid Hsec Hget. rewrite !decide_False by done.
    unfold GetInteractions, cache_Get. rewrite Hget.
    eexists. split; [reflexivity|]. apply jsonBody_answered.
Qed.

(** Draining a key whose record, if there is one, has a usable lock. *)
Lemma GetInteractionsWithId_emptied s id :
  (forall b, cache s !! id = Some b -> free b) ->
  exists e, GetInteractionsWithId s id = Val (emptied s id, (logOf s id, e)).
Proof.
  intros Hfree. unfold emptied, logOf.
  destruct (cache s !! id) as [b|] eqn:Hget.
  - eexists. by apply GetInteractionsWithId_free; [|apply Hfree].
  - eexists. unfold GetInteractionsWithId, cache_Get. by rewrite Hget.
Qed.

Lemma emptied_lookup s id k :
  cache (emptied s id) !! k
  = if decide (k = id) then (fun c => withData c []) <$> cache s !! k else cache s !! k.
Proof.
  unfold emptied. case_decide as Hk.
  - subst k. destruct (cache s !! id) as [c|] eqn:Hget.
    + by rewrite cache_Set_lookup.
    + by rewrite Hget.
  - destruct (cache s !! id) as [c|] eqn:Hget; [|done].
    by rewrite cache_Set_lookup_ne.
Qed.

(** X14: what a poll gives once the session is drained. When the drain
    of the session of a poll returns without error, and the records of
    the operator's token and, with root-TLD capture on, of the domain have
    usable locks where they exist, the answer is 200 and carries the data
    of the session, the log of the operator's bucket and, with capture on,
    the log of the domain's bucket; both buckets are drained, a missing
    one counts as empty, and no other record changes. *)
Theorem poll_composes req s s1 data aesKey :
  Path req = lit "/poll" ->
  Method req <> MethodOptions -> checkToken h req = true ->
  QueryID req <> [] -> QuerySecret req <> [] ->
  GetInteractions s (QueryID req) (QuerySecret req) = Val (s1, (data, aesKey, None)) ->
  (forall b, cache s1 !! Token (options h) = Some b -> free b) ->
  (forall b, cache s1 !! Domain (options h) = Some b -> free b) ->
  Token (options h) <> Domain (options h) ->
  exists s' w,
    serveE req s = Val (s', w)
    /\ status w = Some StatusOK
    /\ body w
       = jsonEncode (JPoll data (logOf s1 (Token (options h))) aesKey
                       (if RootTLD (options h) then logOf s1 (Domain (options h))
                        else []))
    /\ s' = (if RootTLD (options h)
             then emptied (emptied s1 (Token (options h))) (Domain (options h))
             else emptied s1 (Token (options h)))
    /\ forall k, k <> Token (options h) -> k <> Domain (options h) ->
        cache s' !! k = cache s1 !! k.
Proof.
  intros Hp Hm Hc Hid Hsec Hdrain Htok Hdom Hne.
  rewrite (serve_passes req s (pollHandler jsonEncode h))
    by (try done; unfold route; rewrite Hp; done).
  unfold pollHandler. rewrite !decide_False by done.
  rewrite Hdrain. cbn [mbind res_bind].
  destruct (GetInteractionsWithId_emptied s1 (Token (options h)) Htok) as [e1 ->].
  cbn [mbind res_bind].
  destruct (RootTLD (options h)).
  - destruct (GetInteractionsWithId_emptied
                (emptied s1 (Token (options h))) (Domain (options h))) as [e2 ->].
    { intros b. rewrite emptied_lookup, decide_False by done. apply Hdom. }
    cbn [mbind res_bind mret res_ret].
    eexists _, _. split; [reflexivity|]. split; [done|]. split.
    + cbn [body Write WriteHeader setCORS Header_Set status newWriter app].
      do 2 f_equal. unfold logOf.
      by rewrite emptied_lookup, decide_False.
    + split; [done|]. intros k Hk1 Hk2.
      by rewrite !emptied_lookup, !decide_False.
  - cbn [mbind res_bind mret res_ret].
    eexists _, _. split; [reflexivity|]. split; [done|]. split; [done|].
    split; [done|]. intros k Hk1 Hk2.
    by rewrite !emptied_lookup, !decide_False.
Qed.

(** X15: the deregistration endpoint. A request to /deregister that is
    no preflight and passes the gate is answered 400 with an error body,
    the store untouched, when its body does not decode or when the session
    id is not in the store; when the record is there with a usable lock
    and the token of the request is the record's, it is answered 200 and
    the record is gone, all other records as before. *)
Theorem deregister_endpoint req s :
  Path req = lit "/deregister" ->
  Method req <> MethodOptions -> checkToken h req = true ->
  match jsonDecode (Body req) with
  | inl err =>
      exists w, serveE req s = Val (s, w)
        /\ answered jsonEncode w StatusBadRequest "error"
             (lit "could not decode json body: " ++ err)
  | inr (tok, sid) =>
      match cache s !! sid with
      | None =>
          exists w, serveE req s = Val (s, w)
            /\ answered jsonEncode w StatusBadRequest "error"
                 (lit "could not remove id: could not get session-id from cache")
      | Some c =>
          free c -> tok = token c ->
          exists s' w, serveE req s = Val (s', w)
            /\ answered jsonEncode w StatusOK "message" (lit "deregistration successful")
            /\ cache s' !! sid = None
            /\ forall k, k <> sid -> cache s' !! k = cache s !! k
      end
  end.
Proof.
  intros Hp Hm Hc.
  rewrite (serve_passes req s (deregisterHandler jsonEncode jsonDecode))
    by (try done; unfold route; rewrite Hp; done).
  unfold deregisterHandler.
  destruct (jsonDecode (Body req)) as [err | [tok sid]].
  - eexists. split; [reflexivity|]. apply jsonBody_answered.
  - destruct (cache s !! sid) as [c|] eqn:Hget.
    + intros Hfree _. rewrite (RemoveID_free s sid c) by done.
      eexists _, _. split; [reflexivity|].
      split; [apply jsonBody_answered|].
      split; [apply lookup_delete_eq|].
      intros k Hk. by apply lookup_delete_ne.
    + unfold RemoveID, cache_Get. rewrite Hget.
      eexists. split; [reflexivity|]. apply jsonBody_answered.
Qed.

(** X16: the metrics endpoint. A request to /metrics that is no
    preflight and passes the gate is answered 200 with the encoded
    metrics: as many sessions as the store has records, and the count of
    dropped items, which the call clears; no record changes. *)
Theorem metrics_endpoint req s :
  Path req = lit "/metrics" ->
  Method req <> MethodOptions -> checkToken h req = true ->
  exists s' w,
    serveE req s = Val (s', w)
    /\ status w = Some StatusOK
    /\ body w = jsonEncode (JMetrics {| Sessions := size (cache s);
                                        Dropped := dropped s |})
    /\ header w !! lit "Content-Type" = Some (lit "application/json; charset=utf-8")
    /\ cache s' = cache s /\ dropped s' = 0%nat.
Proof.
  intros Hp Hm Hc.
  rewrite (serve_passes req s (metricsHandler jsonEncode))
    by (try done; unfold route; rewrite Hp; done).
  by eexists _, _.
Qed.

(** *** The CORS headers *)

Lemma header_Write w data : header (Write w data) = header w.
Proof. unfold Write, WriteHeader. by destruct (status w). Qed.

Lemma header_WriteHeader w code : header (WriteHeader w code) = header w.
Proof. unfold WriteHeader. by destruct (status w). Qed.

Lemma hasCORS_setCORS w : hasCORS h (setCORS h w).
Proof.
  unfold hasCORS, setCORS, Header_Set. cbn [header].
  repeat split;
    repeat first [ apply lookup_insert_eq | rewrite lookup_insert_ne by done ].
Qed.

(** Setting a header of another name keeps the three. *)
Lemma hasCORS_Header_Set w k v :
  hasCORS h w ->
  lit k <> lit "Access-Control-Allow-Origin" ->
  lit k <> lit "Access-Control-Allow-Credentials" ->
  lit k <> lit "Access-Control-Allow-Headers" ->
  hasCORS h (Header_Set w k v).
Proof.
  intros (H1 & H2 & H3) ? ? ?. unfold hasCORS, Header_Set. cbn [header].
  by rewrite !lookup_insert_ne.
Qed.

Lemma hasCORS_Write w data : hasCORS h w -> hasCORS h (Write w data).
Proof. unfold hasCORS. by rewrite header_Write. Qed.

Lemma hasCORS_WriteHeader w code : hasCORS h w -> hasCORS h (WriteHeader w code).
Proof. unfold hasCORS. by rewrite header_WriteHeader. Qed.

Lemma hasCORS_jsonBody w key value code :
  hasCORS h w -> hasCORS h (jsonBody jsonEncode w key value code).
Proof.
  intros Hw. unfold jsonBody.
  apply hasCORS_Write, hasCORS_WriteHeader.
  do 2 (apply hasCORS_Header_Set; [|done..]). done.
Qed.

Ltac returned Hrun :=
  repeat (unfold mret, res_ret in Hrun; cbn [mbind res_bind] in Hrun;
          match type of Hrun with
          | Val _ = Val _ => injection Hrun as <- <-
          | Panic = Val _ => discriminate Hrun
          | Blocked = Val _ => discriminate Hrun
          | context [match ?x with _ => _ end] => destruct x eqn:?
          | context [mbind _ ?m] => destruct m eqn:?
          end).

(** No handler behind the gate removes or changes one of the three. *)
Lemma handler_keeps_CORS path handler req s w s' w' :
  routeE path = Some handler -> hasCORS h w ->
  handler req (s, w) = Val (s', w') -> hasCORS h w'.
Proof.
  unfold route. intros Hr Hw Hrun.
  repeat case_decide; simplify_eq.
  - unfold registerHandler, jsonError, jsonMsg in Hrun.
    returned Hrun; by apply hasCORS_jsonBody.
  - unfold deregisterHandler, jsonError, jsonMsg in Hrun.
    returned Hrun; by apply hasCORS_jsonBody.
  - unfold pollHandler, jsonError in Hrun.
    returned Hrun; try by apply hasCORS_jsonBody. all: by apply hasCORS_Write.
  - unfold metricsHandler in Hrun. returned Hrun.
    apply hasCORS_Write. do 2 (apply hasCORS_Header_Set; [|done..]). done.
Qed.

(** X17: every answer of a gated route carries the CORS headers.
    Whatever a request to /register, /deregister, /poll or /metrics is
    answered, by the preflight branch, by the gate or by the handler, the
    response has the three Access-Control headers, with the configured
    origin. *)
Theorem cors_on_every_answer req s s' w :
  gated (Path req) -> serveE req s = Val (s', w) -> hasCORS h w.
Proof.
  intros Hp Hrun.
  apply (route_gated jsonEncode jsonDecode h) in Hp as [handler Hr].
  unfold serve, router in Hrun. rewrite Hr in Hrun.
  unfold corsMiddleware in Hrun. case_decide.
  - injection Hrun as <- <-. apply hasCORS_WriteHeader, hasCORS_setCORS.
  - unfold authMiddleware in Hrun. destruct (checkToken h req); cbn [negb] in Hrun.
    + eapply handler_keeps_CORS; [exact Hr|apply hasCORS_setCORS|exact Hrun].
    + injection Hrun as <- <-. apply hasCORS_WriteHeader, hasCORS_setCORS.
Qed.

End Endpoints.
Lemma register_endpoint_witness :
  Path registering = lit "/register"
  /\ Method registering <> MethodOptions
  /\ checkToken guarded registering = true
  /\ exists s' w c,
      @serve storedZlib noEncode pairDecode noRoot guarded registering (New 0)
      = Val (s', w)
      /\ answered noEncode w StatusOK "message" (lit "registration successful")
      /\ cache s' !! sid = Some c /\ Data c = [] /\ token c = lit "t0ken"
      /\ forall k, k <> sid -> cache s' !! k = cache (New 0) !! k.
Proof.
  assert (H1 : Path registering = lit "/register") by reflexivity.
  assert (H2 : Method registering <> MethodOptions) by (vm_compute; discriminate).
  assert (H3 : checkToken guarded registering = true) by reflexivity.
  exact (conj H1 (conj H2 (conj H3
    (@register_endpoint storedZlib noEncode pairDecode noRoot guarded registering
                        (New 0) H1 H2 H3)))).
Defined.

Lemma poll_refusals_witness :
  Path pollingBlind = lit "/poll"
  /\ Method pollingBlind <> MethodOptions
  /\ checkToken guarded pollingBlind = true
  /\ exists w,
      @serve storedZlib noEncode pairDecode noRoot guarded pollingBlind serving
      = Val (serving, w)
      /\ answered noEncode w StatusBadRequest "error" (lit "no id specified for poll").
Proof.
  assert (H1 : Path pollingBlind = lit "/poll") by reflexivity.
  assert (H2 : Method pollingBlind <> MethodOptions) by (vm_compute; discriminate).
  assert (H3 : checkToken guarded pollingBlind = true) by reflexivity.
  exact (conj H1 (conj H2 (conj H3
    (proj1 (@poll_refusals storedZlib noEncode pairDecode noRoot guarded pollingBlind
                           serving H1 H2 H3) eq_refl)))).
Defined.

Lemma poll_composes_witness :
  Path polling = lit "/poll"
  /\ Method polling <> MethodOptions
  /\ checkToken guarded polling = true
  /\ QueryID polling <> [] /\ QuerySecret polling <> []
  /\ @GetInteractions storedZlib serving (QueryID polling) (QuerySecret polling)
     = Val (polled, ([], [], None))
  /\ (forall b, cache polled !! Token (options guarded) = Some b -> free b)
  /\ (forall b, cache polled !! Domain (options guarded) = Some b -> free b)
  /\ Token (options guarded) <> Domain (options guarded)
  /\ exists s' w,
      @serve storedZlib noEncode pairDecode noRoot guarded polling serving = Val (s', w)
      /\ status w = Some StatusOK
      /\ body w
         = noEncode (JPoll [] (@logOf storedZlib polled (Token (options guarded))) []
                       (if RootTLD (options guarded)
                        then @logOf storedZlib polled (Domain (options guarded))
                        else []))
      /\ s' = (if RootTLD (options guarded)
               then emptied (emptied polled (Token (options guarded)))
                            (Domain (options guarded))
               else emptied polled (Token (options guarded)))
      /\ forall k, k <> Token (options guarded) -> k <> Domain (options guarded) ->
          cache s' !! k = cache polled !! k.
Proof.
  assert (H1 : Path polling = lit "/poll") by reflexivity.
  assert (H2 : Method polling <> MethodOptions) by (vm_compute; discriminate).
  assert (H3 : checkToken guarded polling = true) by reflexivity.
  assert (H4 : QueryID polling <> []) by (vm_compute; discriminate).
  assert (H5 : QuerySecret polling <> []) by (vm_compute; discriminate).
  assert (H6 : @GetInteractions storedZlib serving (QueryID polling) (QuerySecret polling)
               = Val (polled, ([], [], None))) by reflexivity.
  assert (H7 : forall b, cache polled !! Token (options guarded) = Some b -> free b).
  { intros b Hb. vm_compute in Hb. injection Hb as <-. reflexivity. }
  assert (H8 : forall b, cache polled !! Domain (options guarded) = Some b -> free b).
  { intros b Hb. vm_compute in Hb. discriminate Hb. }
  assert (H9 : Token (options guarded) <> Domain (options guarded))
    by (vm_compute; discriminate).
  exact (conj H1 (conj H2 (conj H3 (conj H4 (conj H5 (conj H6 (conj H7 (conj H8 (conj H9
    (@poll_composes storedZlib noEncode pairDecode noRoot guarded polling serving
                    polled [] [] H1 H2 H3 H4 H5 H6 H7 H8 H9)))))))))).
Defined.

Lemma deregister_endpoint_witness :
  Path deregistering = lit "/deregister"
  /\ Method deregistering <> MethodOptions
  /\ checkToken guarded deregistering = true
  /\ exists s' w,
      @serve storedZlib noEncode pairDecode noRoot guarded deregistering serving
      = Val (s', w)
      /\ answered noEncode w StatusOK "message" (lit "deregistration successful")
      /\ cache s' !! sid = None
      /\ forall k, k <> sid -> cache s' !! k = cache serving !! k.
Proof.
  assert (H1 : Path deregistering = lit "/deregister") by reflexivity.
  assert (H2 : Method deregistering <> MethodOptions) by (vm_compute; discriminate).
  assert (H3 : checkToken guarded deregistering = true) by reflexivity.
  exact (conj H1 (conj H2 (conj H3
    ((@deregister_endpoint storedZlib noEncode pairDecode noRoot guarded deregistering
                           serving H1 H2 H3
      : free bucketRecord -> [] = token bucketRecord -> _) eq_refl eq_refl)))).
Defined.

Lemma metrics_endpoint_witness :
  Path measuring = lit "/metrics"
  /\ Method measuring <> MethodOptions
  /\ checkToken guarded measuring = true
  /\ exists s' w,
      @serve storedZlib noEncode pairDecode noRoot guarded measuring serving = Val (s', w)
      /\ status w = Some StatusOK
      /\ body w = noEncode (JMetrics {| Sessions := size (cache serving);
                                        Dropped := dropped serving |})
      /\ header w !! lit "Content-Type" = Some (lit "application/json; charset=utf-8")
      /\ cache s' = cache serving /\ dropped s' = 0%nat.
Proof.
  assert (H1 : Path measuring = lit "/metrics") by reflexivity.
  assert (H2 : Method measuring <> MethodOptions) by (vm_compute; discriminate).
  assert (H3 : checkToken guarded measuring = true) by reflexivity.
  exact (conj H1 (conj H2 (conj H3
    (@metrics_endpoint storedZlib noEncode pairDecode noRoot guarded measuring
                       serving H1 H2 H3)))).
Defined.

Lemma cors_on_every_answer_witness :
  gated (Path guessing)
  /\ @serve storedZlib noEncode pairDecode noRoot guarded guessing serving
     = Val (serving, WriteHeader (setCORS guarded newWriter) StatusUnauthorized)
  /\ hasCORS guarded (WriteHeader (setCORS guarded newWriter) StatusUnauthorized).
Proof.
  assert (H1 : gated (Path guessing)) by (left; reflexivity).
  assert (H2 : @serve storedZlib noEncode pairDecode noRoot guarded guessing serving
               = Val (serving, WriteHeader (setCORS guarded newWriter)
                                           StatusUnauthorized)) by reflexivity.
  exact (conj H1 (conj H2
    (@cors_on_every_answer storedZlib noEncode pairDecode noRoot guarded guessing
                           serving _ _ H1 H2))).
Defined.

End EndpointFacts.

(** ** The route [/] *)

Module RootFacts.
Import Utf8 Server Codec Storage HTTP Cache Endpoint Root Scenes Fixtures.
Import GoStringFacts Utf8Facts ServerFacts CodecFacts StorageFacts HTTPFacts.
Import IdentifierFacts CacheFacts EndpointFacts.

(** *** Suffixes *)

Lemma HasSuffix_spec s suffix : HasSuffix s suffix = true <-> exists p, s = p ++ suffix.
Proof.
  unfold HasSuffix. rewrite andb_true_iff, Nat.leb_le, bool_decide_eq_true. split.
  - intros [Hlen Hdrop]. exists (take (length s - length suffix) s).
    rewrite <- (take_drop (length s - length suffix) s) at 1. by rewrite Hdrop.
  - intros [p ->]. rewrite length_app. split; [lia|].
    replace (length p + length suffix - length suffix)%nat with (length p) by lia.
    by rewrite drop_app_length.
Qed.

Lemma TrimSuffix_app p suffix : TrimSuffix (p ++ suffix) suffix = p.
Proof.
  unfold TrimSuffix.
  rewrite (proj2 (HasSuffix_spec (p ++ suffix) suffix)) by by exists p.
  rewrite length_app.
  replace (length p + length suffix - length suffix)%nat with (length p) by lia.
  by rewrite take_app_length.
Qed.

(** *** The reflection and the extraction never panic *)

Lemma URLReflection_total host :
  exists r, URLReflection host = Some r
            /\ (Forall notWidth (Split host) -> r = [])
            /\ (Exists hasWidth (Split host) -> r <> []).
Proof.
  destruct (hasWidth_dec (Split host)) as [Hex | Hnone].
  - destruct (last_label _ Hex) as (pre & l & post & Hsplit & Hl & Hpost).
    eexists. split; [by apply (URLReflection_last host pre l post)|]. split.
    + intros Hnone. by apply notWidth_not_Exists in Hnone.
    + intros _. by apply reflected_nonempty, hasWidth_nonempty.
  - exists []. split; [unfold URLReflection; by rewrite scanRandomID_none|].
    split; [done|]. intros Hex. by apply notWidth_not_Exists in Hnone.
Qed.

Lemma extract_cases host :
  exists e, ExtractIdentifier host = Some e
            /\ (Forall notWidth (Split host) -> e = notFound)
            /\ (forall pre l post,
                  Split host = pre ++ l :: post -> hasWidth l -> Forall notWidth post ->
                  e = extractedAt pre l).
Proof.
  destruct (hasWidth_dec (Split host)) as [Hex | Hnone].
  - destruct (last_label _ Hex) as (pre & l & post & Hsplit & Hl & Hpost).
    exists (extractedAt pre l).
    split; [by apply (ExtractIdentifier_last host pre l post)|]. split.
    + intros Hnone. by apply notWidth_not_Exists in Hnone.
    + intros pre' l' post' Hsplit' Hl' Hpost'.
      pose proof (ExtractIdentifier_last host pre l post Hsplit Hl Hpost) as E1.
      pose proof (ExtractIdentifier_last host pre' l' post' Hsplit' Hl' Hpost') as E2.
      congruence.
  - exists notFound. split; [by apply ExtractIdentifier_none|]. split; [done|].
    intros pre l post Hsplit Hl _. exfalso.
    apply notWidth_not_Exists in Hnone. apply Hnone. rewrite Hsplit.
    apply Exists_app. right. by left.
Qed.

(** *** What an append leaves of the store *)

Section Appends.
Context `{Zlib}.

Lemma critical_section_returns c (f : list gostring -> list gostring) c2 :
  (c1 ← Lock c; Unlock (withData c1 (f (Data c1)))) = Val c2 ->
  free c /\ c2 = withData c (f (Data c)).
Proof.
  unfold Lock, Unlock, free, withData. destruct c as [d [[|]|] t]; cbn; try done.
  by intros [= <-].
Qed.

Lemma AddInteraction_returns s id data s' e :
  AddInteraction s id data = Val (s', e) ->
  (s' = s /\ cache s !! id = None)
  \/ exists c, cache s !! id = Some c /\ free c
               /\ s' = cache_Set s id (withData c (Data c ++ [data])).
Proof.
  unfold AddInteraction, cache_Get. destruct (cache s !! id) as [c|] eqn:Hget.
  - intros Hrun. right. exists c.
    destruct (v1 ← Lock c; Unlock (withData v1 (Data v1 ++ [data]))) as [c2| |] eqn:Hcs.
    + apply (critical_section_returns c (fun d => d ++ [data])) in Hcs as [Hfree ->].
      rewrite (critical_section c (fun d => d ++ [_])) in Hrun by done.
      by injection Hrun as <- _.
    + exfalso. revert Hrun Hcs. unfold Lock, Unlock.
      destruct c as [d [[|]|] t]; cbn; done.
    + exfalso. revert Hrun Hcs. unfold Lock, Unlock.
      destruct c as [d [[|]|] t]; cbn; done.
  - intros [= <- _]. by left.
Qed.

Lemma AddInteractionWithId_returns s id data s' e :
  AddInteractionWithId s id data = Val (s', e) ->
  s' = s
  \/ exists c blob, cache s !! id = Some c /\ free c /\ zlibWrite data = inl blob
                    /\ s' = cache_Set s id (withData c (Data c ++ [blob])).
Proof.
  unfold AddInteractionWithId, cache_Get. destruct (cache s !! id) as [c|] eqn:Hget.
  - destruct (zlibWrite data) as [blob|err] eqn:Hw; [|intros [= <- _]; by left].
    intros Hrun. right. exists c, blob.
    revert Hrun. unfold Lock, Unlock, free, withData.
    destruct c as [d [[|]|] t]; cbn; try done. by intros [= <- _].
  - intros [= <- _]. by left.
Qed.

End Appends.

(** *** The default handler and the logger *)

Section RootRoute.
Context `{Zlib}.
Variable EqualFold : gostring -> gostring -> bool.
Variable dumpRequest : Request -> gostring.
Variable dumpResponse : ResponseWriter -> gostring.
Variable remoteHost : Request -> gostring.
Variable rootTime idTime : Z.
Variable encodeInteraction : Interaction -> gostring + gostring.
Variable h : HTTPServer.
Variable jsonEncode : JsonValue -> gostring.
Variable jsonDecode : gostring -> gostring + gostring * gostring.

Abbreviation defaultR := (defaultHandler EqualFold h).
Abbreviation loggerR :=
  (logger dumpRequest dumpResponse remoteHost rootTime idTime encodeInteraction h).
Abbreviation serveR :=
  (ServeHTTP EqualFold dumpRequest dumpResponse remoteHost rootTime idTime
             encodeInteraction h jsonEncode jsonDecode).

Lemma status_Write w data : status w = None -> status (Write w data) = Some StatusOK.
Proof. unfold Write, WriteHeader. by intros ->. Qed.

Lemma body_Write w data : body (Write w data) = body w ++ data.
Proof. unfold Write, WriteHeader. by destruct (status w). Qed.

(** What the default handler leaves on a fresh recorder. *)
Lemma defaultHandler_fresh req s :
  exists r rec,
    URLReflection (Host req) = Some r
    /\ defaultR req (s, newWriter) = Val (s, rec)
    /\ status rec = Some StatusOK
    /\ header rec !! lit "Server" = Some (domain h)
    /\ (Path req = lit "/" -> r = [] -> body rec = bannerHead ++ domain h ++ bannerTail)
    /\ (~ (Path req = lit "/" /\ r = []) -> exists before after, body rec = before ++ r ++ after).
Proof.
  destruct (URLReflection_total (Host req)) as (r & Hr & _).
  exists r. unfold defaultHandler. rewrite Hr.
  destruct (bool_decide (Path req = lit "/") && bool_decide (r = [])) eqn:Hbanner.
  - apply andb_true_iff in Hbanner as [Hp%bool_decide_eq_true He%bool_decide_eq_true].
    eexists. split; [done|]. split; [reflexivity|]. split; [done|].
    split; [apply lookup_insert_eq|]. split; [done|]. intros []. done.
  - assert (Hnot : ~ (Path req = lit "/" /\ r = [])).
    { intros [Hp He]. by rewrite !bool_decide_eq_true_2 in Hbanner. }
    destruct (EqualFold (Path req) (lit "/robots.txt")); [|
    destruct (HasSuffix (Path req) (lit ".json")); [|
    destruct (HasSuffix (Path req) (lit ".xml"))]].
    all: eexists; split; [done|]; split; [reflexivity|]; split; [done|].
    all: split; [cbn [header Header_Set Write WriteHeader status newWriter];
                 by rewrite ?lookup_insert_ne, lookup_insert_eq by done|].
    all: split; [intros Hp He; by destruct Hnot|]; intros _.
    + exists (lit "User-agent: *" ++ newline :: lit "Disallow: / # "), [].
      cbn [body Header_Set Write WriteHeader status newWriter app].
      by rewrite app_nil_r, <- app_assoc.
    + exists (lit "{" ++ dquote :: lit "data" ++ dquote :: lit ":" ++ [dquote]),
             (dquote :: lit "}").
      reflexivity.
    + exists (lit "<data>"), (lit "</data>"). reflexivity.
    + exists (lit "<html><head></head><body>"), (lit "</body></html>"). reflexivity.
Qed.

(** What the logger sends on a fresh writer is what was recorded. *)
Lemma relay_fresh rec :
  let w := Write (WriteHeader (copyHeader rec newWriter) (recordedStatus rec)) (body rec) in
  status w = Some (recordedStatus rec) /\ body w = body rec /\ header w = header rec.
Proof.
  cbn. split; [done|]. split; [done|]. apply (right_id_L ∅ (∪)).
Qed.

Lemma logger_sends handler req s s1 rec s2 w :
  handler req (s, newWriter) = Val (s1, rec) ->
  loggerR handler req (s, newWriter) = Val (s2, w) ->
  w = Write (WriteHeader (copyHeader rec newWriter) (recordedStatus rec)) (body rec).
Proof.
  intros Hh Hrun. unfold logger in Hrun. rewrite Hh in Hrun.
  unfold mret, res_ret in Hrun. cbn [mbind res_bind] in Hrun.
  destruct (extract_cases (Host req)) as (e & He & _).
  rewrite He in Hrun.
  set (capture := if RootTLD (options h) && HasSuffix (Host req) (domain h) then _ else _)
    in Hrun.
  destruct capture as [s1'| |]; cbn [mbind res_bind] in Hrun; try done.
  destruct (found e); [|by injection Hrun as _ <-].
  match type of Hrun with
  | context [encodeInteraction ?i] => destruct (encodeInteraction i) as [bytes|err]
  end; [|by injection Hrun as _ <-].
  destruct (AddInteraction s1' (correlationID e) bytes) as [[s2' e2]| |];
    cbn [mbind res_bind] in Hrun; try done.
  by injection Hrun as _ <-.
Qed.

(** X18: the logger is transparent to the client and touches two keys at
    most. When a handler returns on the recorder and the logger returns,
    the response has the recorded status (200 when none was written),
    body and headers, and the store differs from the one the handler left
    at most at the key of the domain and at the correlation id the host
    carries. *)
Theorem logger_is_transparent handler req s s1 rec s2 w :
  handler req (s, newWriter) = Val (s1, rec) ->
  loggerR handler req (s, newWriter) = Val (s2, w) ->
  status w = Some (recordedStatus rec) /\ body w = body rec /\ header w = header rec
  /\ exists e, ExtractIdentifier (Host req) = Some e
       /\ forall k, k <> domain h -> k <> correlationID e ->
                    cache s2 !! k = cache s1 !! k.
Proof.
  intros Hh Hrun. unfold logger in Hrun. rewrite Hh in Hrun.
  unfold mret, res_ret in Hrun. cbn [mbind res_bind] in Hrun.
  destruct (extract_cases (Host req)) as (e & He & _).
  rewrite He in Hrun.
  set (capture := if RootTLD (options h) && HasSuffix (Host req) (domain h) then _ else _)
    in Hrun.
  destruct capture as [s1'| |] eqn:Hcap; cbn [mbind res_bind] in Hrun; try done.
  assert (Hroot : forall k, k <> domain h -> cache s1' !! k = cache s1 !! k).
  { intros k Hk. subst capture.
    destruct (RootTLD (options h) && HasSuffix (Host req) (domain h));
      [|by injection Hcap as <-].
    match type of Hcap with
    | context [encodeInteraction ?i] => destruct (encodeInteraction i) as [bytes|err]
    end; [|by injection Hcap as <-].
    destruct (AddInteractionWithId s1 (domain h) bytes) as [[s1'' e1]| |] eqn:Hadd;
      cbn [mbind res_bind] in Hcap; try done. injection Hcap as <-.
    apply AddInteractionWithId_returns in Hadd as [-> | (c & blob & _ & _ & _ & ->)];
      [done|]. by apply cache_Set_lookup_ne. }
  assert (Hid : w = Write (WriteHeader (copyHeader rec newWriter) (recordedStatus rec))
                      (body rec)
                /\ forall k, k <> correlationID e -> cache s2 !! k = cache s1' !! k).
  { clear Hcap Hroot. destruct (found e); [|by injection Hrun as <- <-].
    match type of Hrun with
    | context [encodeInteraction ?i] => destruct (encodeInteraction i) as [bytes|err]
    end; [|by injection Hrun as <- <-].
    destruct (AddInteraction s1' (correlationID e) bytes) as [[s2' e2]| |] eqn:Hadd;
      cbn [mbind res_bind] in Hrun; try done. injection Hrun as <- <-.
    split; [done|]. intros k Hk.
    apply AddInteraction_returns in Hadd as [[-> _] | (c & _ & _ & ->)]; [done|].
    by apply cache_Set_lookup_ne. }
  destruct Hid as [-> Hid]. destruct (relay_fresh rec) as (? & ? & ?).
  do 3 (split; [done|]). exists e. split; [done|].
  intros k Hk1 Hk2. by rewrite Hid, Hroot.
Qed.


Lemma serve_root req s :
  ~ gated (Path req) -> serveR req s = loggerR defaultR req (s, newWriter).
Proof.
  intros Hp. unfold ServeHTTP, serve, router.
  destruct (route jsonEncode jsonDecode h (Path req)) as [handler|] eqn:Hr; [|done].
  destruct Hp. apply (route_gated jsonEncode jsonDecode h). by eexists.
Qed.

(** X19: what the route [/] answers. The default handler never panics
    and never touches the store: on every request it answers 200 with the
    Server header set to the domain; the body is the banner with the
    domain when the path is / and the host carries no identifier, and
    otherwise contains the reflection of the host. Whenever the route
    returns, the client gets this status, body and headers. *)
Theorem root_answer req s :
  exists r rec,
    URLReflection (Host req) = Some r
    /\ defaultR req (s, newWriter) = Val (s, rec)
    /\ status rec = Some StatusOK
    /\ header rec !! lit "Server" = Some (domain h)
    /\ (Path req = lit "/" -> r = [] -> body rec = bannerHead ++ domain h ++ bannerTail)
    /\ (~ (Path req = lit "/" /\ r = []) ->
        exists before after, body rec = before ++ r ++ after)
    /\ forall s' w,
        ~ gated (Path req) -> serveR req s = Val (s', w) ->
        status w = Some StatusOK /\ body w = body rec /\ header w = header rec.
Proof.
  destruct (defaultHandler_fresh req s) as (r & rec & Hr & Hdef & Hst & Hsrv & Hb & Hrefl).
  exists r, rec. do 6 (split; [done|]).
  intros s' w Hp Hrun. rewrite serve_root in Hrun by done.
  rewrite (logger_sends _ _ _ _ _ _ _ Hdef Hrun).
  destruct (relay_fresh rec) as (Hs & Hbody & Hhead).
  split; [|done]. rewrite Hs. unfold recordedStatus. by rewrite Hst.
Qed.

(** The logger on the default handler, with root-TLD capture off. *)
Lemma logger_default_plain req s rec :
  RootTLD (options h) = false ->
  defaultR req (s, newWriter) = Val (s, rec) ->
  exists e w,
    ExtractIdentifier (Host req) = Some e
    /\ status w = Some StatusOK
    /\ loggerR defaultR req (s, newWriter)
       = (if found e then
            match encodeInteraction
                    {| Protocol := lit "http"; UniqueID := uniqueID e;
                       FullId := fullID e; RawRequest := dumpRequest req;
                       RawResponse := dumpResponse rec;
                       RemoteAddress := remoteHost req; Timestamp := idTime |} with
            | inr _ => Val (s, w)
            | inl bytes =>
                '(s', _) ← AddInteraction s (correlationID e) bytes; Val (s', w)
            end
          else Val (s, w)).
Proof.
  intros Hoff Hdef.
  destruct (extract_cases (Host req)) as (e & He & _).
  destruct (defaultHandler_fresh req s) as (r & rec' & _ & Hdef' & Hst & _).
  assert (rec' = rec) as -> by congruence.
  exists e. eexists. split; [done|].
  unfold logger. rewrite Hdef, Hoff, He. cbn [andb mbind res_bind mret res_ret].
  split; [|reflexivity]. cbn. unfold recordedStatus. by rewrite Hst.
Qed.

(** X20: a request that carries the identifier of a session is logged
    under its correlation id. With root-TLD capture off, when the last
    label of 33 characters of the host has its first 20 characters
    registered with a usable lock, a request on the route [/] is answered
    200 and, if the interaction encodes, the log of that record gains one
    item at its end and no other record changes; the interaction names
    the label as unique id and the host up to the label as full id. If the
    interaction does not encode, the store is untouched. *)
Theorem root_request_logged req s pre l post c :
  ~ gated (Path req) -> RootTLD (options h) = false ->
  Split (Host req) = pre ++ l :: post -> hasWidth l -> Forall notWidth post ->
  cache s !! take 20 l = Some c -> free c ->
  exists s' w rec,
    defaultR req (s, newWriter) = Val (s, rec)
    /\ serveR req s = Val (s', w)
    /\ status w = Some StatusOK
    /\ match encodeInteraction
               {| Protocol := lit "http"; UniqueID := l; FullId := Join (pre ++ [l]);
                  RawRequest := dumpRequest req; RawResponse := dumpResponse rec;
                  RemoteAddress := remoteHost req; Timestamp := idTime |} with
       | inl bytes =>
           (exists item, cache s' !! take 20 l = Some (withData c (Data c ++ [item])))
           /\ forall k, k <> take 20 l -> cache s' !! k = cache s !! k
       | inr _ => s' = s
       end.
Proof.
  intros Hp Hoff Hsplit Hl Hpost Hget Hfree.
  destruct (defaultHandler_fresh req s) as (r & rec & _ & Hdef & _).
  destruct (logger_default_plain req s rec Hoff Hdef) as (e & w & He & Hst & Hrun).
  rewrite (ExtractIdentifier_last _ pre l post) in He by done.
  injection He as <-. cbn [found uniqueID fullID correlationID extractedAt] in Hrun.
  rewrite serve_root by done. rewrite Hrun.
  match goal with
  | |- context [encodeInteraction ?i] =>
      destruct (encodeInteraction i) as [bytes|err] eqn:Henc
  end.
  - rewrite (AddInteraction_free s _ c) by done. cbn [mbind res_bind].
    eexists _, w, rec. do 3 (split; [done|]). rewrite Henc. split.
    + eexists. apply cache_Set_lookup.
    + intros k Hk. by apply cache_Set_lookup_ne.
  - eexists s, w, rec. do 3 (split; [done|]). by rewrite Henc.
Qed.

(** X21: an interaction nobody waits for is dropped and the client is
    answered all the same. With root-TLD capture off, when the host
    carries no label of 33 characters, or carries one whose first 20
    characters are no key of the store, a request on the route [/] is
    answered 200 and leaves the store as it was. *)
Theorem root_request_dropped req s :
  ~ gated (Path req) -> RootTLD (options h) = false ->
  (forall pre l post,
     Split (Host req) = pre ++ l :: post -> hasWidth l -> Forall notWidth post ->
     cache s !! take 20 l = None) ->
  exists w, serveR req s = Val (s, w) /\ status w = Some StatusOK.
Proof.
  intros Hp Hoff Hnone.
  destruct (defaultHandler_fresh req s) as (r & rec & _ & Hdef & _).
  destruct (logger_default_plain req s rec Hoff Hdef) as (e & w & He & Hst & Hrun).
  rewrite serve_root by done. rewrite Hrun. exists w. split; [|done].
  destruct (hasWidth_dec (Split (Host req))) as [Hex | Hno].
  - destruct (last_label _ Hex) as (pre & l & post & Hsplit & Hl & Hpost).
    rewrite (ExtractIdentifier_last _ pre l post) in He by done.
    injection He as <-. cbn [found uniqueID fullID correlationID extractedAt].
    match goal with
    | |- context [encodeInteraction ?i] => destruct (encodeInteraction i) as [bytes|err]
    end; [|done].
    pose proof (Hnone pre l post Hsplit Hl Hpost) as Hn.
    change (take 20 l) with (take correlationWidth l) in Hn.
    unfold AddInteraction, cache_Get. by rewrite Hn.
  - rewrite ExtractIdentifier_none in He by done. by injection He as <-.
Qed.

(** X22: root-TLD capture comes back on a drain of the domain. With
    capture on, a request on the route [/] whose host ends with the domain
    and carries no identifier, when the bucket of the domain has a usable
    lock and the interaction encodes and compresses, is answered 200, and
    the next drain of the domain's bucket returns what the bucket held
    followed by the encoded interaction; no other record changes. *)
Theorem root_capture_round_trip `{!ZlibLaws H} req s rec d bytes blob :
  ~ gated (Path req) -> RootTLD (options h) = true ->
  HasSuffix (Host req) (domain h) = true ->
  Forall notWidth (Split (Host req)) ->
  cache s !! domain h = Some d -> free d ->
  defaultR req (s, newWriter) = Val (s, rec) ->
  encodeInteraction
    {| Protocol := lit "http"; UniqueID := Host req; FullId := Host req;
       RawRequest := dumpRequest req; RawResponse := dumpResponse rec;
       RemoteAddress := remoteHost req; Timestamp := rootTime |} = inl bytes ->
  zlibWrite bytes = inl blob ->
  exists s1 w s2,
    serveR req s = Val (s1, w)
    /\ status w = Some StatusOK
    /\ (forall k, k <> domain h -> cache s1 !! k = cache s !! k)
    /\ GetInteractionsWithId s1 (domain h)
       = Val (s2, (map inflateOne (Data d) ++ [bytes], None)).
Proof.
  intros Hp Hon Hsuf Hno Hget Hfree Hdef Henc Hw.
  destruct (defaultHandler_fresh req s) as (r & rec' & _ & Hdef' & Hst & _).
  assert (rec' = rec) as -> by congruence.
  rewrite serve_root by done. unfold logger.
  rewrite Hdef. cbn [mbind res_bind]. rewrite Hon, Hsuf. cbn [andb].
  rewrite Henc.
  rewrite (AddInteractionWithId_free s _ d bytes blob) by done.
  cbn [mbind res_bind]. rewrite ExtractIdentifier_none by done.
  cbn [found notFound].
  eexists _, _, _. split; [reflexivity|].
  split; [cbn; unfold recordedStatus; by rewrite Hst|].
  split; [intros k Hk; by apply cache_Set_lookup_ne|].
  erewrite GetInteractionsWithId_free; [|apply cache_Set_lookup|done].
  cbn [Data withData]. rewrite map_app. cbn [map].
  by rewrite (inflateOne_written bytes blob).
Qed.

End RootRoute.

(** X23: the server [NewHTTPServer] builds keeps its options, and its
    domain is the configured domain without one final dot: a domain
    written with a final dot loses exactly that dot, any other is kept as
    it is. *)
Theorem NewHTTPServer_domain opts :
  options (NewHTTPServer opts) = opts
  /\ (forall d, Domain opts = d ++ lit "." -> domain (NewHTTPServer opts) = d)
  /\ ((forall d, Domain opts <> d ++ lit ".") ->
      domain (NewHTTPServer opts) = Domain opts).
Proof.
  split; [done|]. unfold NewHTTPServer. cbn [domain]. split.
  - intros d ->. apply TrimSuffix_app.
  - intros Hno. unfold TrimSuffix.
    destruct (HasSuffix (Domain opts) (lit ".")) eqn:Hs; [|done].
    apply HasSuffix_spec in Hs as [p Hp]. by destruct (Hno p).
Qed.

Lemma logger_is_transparent_witness :
  defaultHandler sameText guarded browsing (serving, newWriter)
  = Val (serving, bannerPage guarded)
  /\ @logger storedZlib requestLine body peer 0 0 encodeLine guarded
             (defaultHandler sameText guarded) browsing (serving, newWriter)
     = Val (serving, relayed (bannerPage guarded))
  /\ status (relayed (bannerPage guarded)) = Some (recordedStatus (bannerPage guarded))
  /\ body (relayed (bannerPage guarded)) = body (bannerPage guarded)
  /\ header (relayed (bannerPage guarded)) = header (bannerPage guarded)
  /\ exists e, ExtractIdentifier (Host browsing) = Some e
       /\ forall k, k <> domain guarded -> k <> correlationID e ->
                    cache serving !! k = cache serving !! k.
Proof.
  assert (H1 : defaultHandler sameText guarded browsing (serving, newWriter)
               = Val (serving, bannerPage guarded)) by reflexivity.
  assert (H2 : @logger storedZlib requestLine body peer 0 0 encodeLine guarded
                       (defaultHandler sameText guarded) browsing (serving, newWriter)
               = Val (serving, relayed (bannerPage guarded))) by reflexivity.
  exact (conj H1 (conj H2
    (@logger_is_transparent storedZlib requestLine body peer 0 0 encodeLine guarded
                            (defaultHandler sameText guarded) browsing
                            serving serving (bannerPage guarded) serving
                            (relayed (bannerPage guarded)) H1 H2))).
Defined.

Lemma root_request_logged_witness :
  ~ gated (Path visiting)
  /\ RootTLD (options guarded) = false
  /\ Split (Host visiting) = [] ++ alphabet :: [lit "example"; lit "com"]
  /\ hasWidth alphabet
  /\ Forall notWidth [lit "example"; lit "com"]
  /\ cache listening !! take 20 alphabet = Some bucketRecord
  /\ free bucketRecord
  /\ exists s' w rec,
      defaultHandler sameText guarded visiting (listening, newWriter)
      = Val (listening, rec)
      /\ @ServeHTTP storedZlib sameText requestLine body peer 0 0 encodeLine guarded
                    noEncode pairDecode visiting listening = Val (s', w)
      /\ status w = Some StatusOK
      /\ (exists item,
            cache s' !! take 20 alphabet
            = Some (withData bucketRecord (Data bucketRecord ++ [item])))
      /\ forall k, k <> take 20 alphabet -> cache s' !! k = cache listening !! k.
Proof.
  assert (H1 : ~ gated (Path visiting)).
  { intros [Hp | [Hp | [Hp | Hp]]]; discriminate Hp. }
  assert (H2 : RootTLD (options guarded) = false) by reflexivity.
  assert (H3 : Split (Host visiting) = [] ++ alphabet :: [lit "example"; lit "com"])
    by reflexivity.
  assert (H4 : hasWidth alphabet) by reflexivity.
  assert (H5 : Forall notWidth [lit "example"; lit "com"])
    by (repeat constructor; vm_compute; discriminate).
  assert (H6 : cache listening !! take 20 alphabet = Some bucketRecord) by reflexivity.
  assert (H7 : free bucketRecord) by reflexivity.
  exact (conj H1 (conj H2 (conj H3 (conj H4 (conj H5 (conj H6 (conj H7
    (@root_request_logged storedZlib sameText requestLine body peer 0 0 encodeLine
                          guarded noEncode pairDecode visiting listening
                          [] alphabet _ bucketRecord H1 H2 H3 H4 H5 H6 H7)))))))).
Defined.

Lemma root_request_dropped_witness :
  ~ gated (Path visiting)
  /\ RootTLD (options guarded) = false
  /\ (forall pre l post,
        Split (Host visiting) = pre ++ l :: post -> hasWidth l -> Forall notWidth post ->
        cache (New 0) !! take 20 l = None)
  /\ exists w,
      @ServeHTTP storedZlib sameText requestLine body peer 0 0 encodeLine guarded
                 noEncode pairDecode visiting (New 0) = Val (New 0, w)
      /\ status w = Some StatusOK.
Proof.
  assert (H1 : ~ gated (Path visiting)).
  { intros [Hp | [Hp | [Hp | Hp]]]; discriminate Hp. }
  assert (H2 : RootTLD (options guarded) = false) by reflexivity.
  assert (H3 : forall pre l post,
             Split (Host visiting) = pre ++ l :: post -> hasWidth l ->
             Forall notWidth post -> cache (New 0) !! take 20 l = None).
  { intros pre l post _ _ _. apply lookup_empty. }
  exact (conj H1 (conj H2 (conj H3
    (@root_request_dropped storedZlib sameText requestLine body peer 0 0 encodeLine
                           guarded noEncode pairDecode visiting (New 0) H1 H2 H3)))).
Defined.

Lemma root_capture_round_trip_witness :
  ~ gated (Path browsing)
  /\ RootTLD (options capturing) = true
  /\ HasSuffix (Host browsing) (domain capturing) = true
  /\ Forall notWidth (Split (Host browsing))
  /\ cache catching !! domain capturing = Some bucketRecord
  /\ free bucketRecord
  /\ exists s1 w s2,
      @ServeHTTP storedZlib sameText requestLine body peer 0 0 encodeLine capturing
                 noEncode pairDecode browsing catching = Val (s1, w)
      /\ status w = Some StatusOK
      /\ (forall k, k <> domain capturing -> cache s1 !! k = cache catching !! k)
      /\ @GetInteractionsWithId storedZlib s1 (domain capturing)
         = Val (s2, (map (@inflateOne storedZlib) (Data bucketRecord)
                       ++ [lit "www.example.com GET /"], None)).
Proof.
  assert (H1 : ~ gated (Path browsing)).
  { intros [Hp | [Hp | [Hp | Hp]]]; discriminate Hp. }
  assert (H2 : RootTLD (options capturing) = true) by reflexivity.
  assert (H3 : HasSuffix (Host browsing) (domain capturing) = true) by reflexivity.
  assert (H4 : Forall notWidth (Split (Host browsing)))
    by (repeat constructor; vm_compute; discriminate).
  assert (H5 : cache catching !! domain capturing = Some bucketRecord) by reflexivity.
  assert (H6 : free bucketRecord) by reflexivity.
  assert (H7 : defaultHandler sameText capturing browsing (catching, newWriter)
               = Val (catching, bannerPage capturing)) by reflexivity.
  assert (H8 : encodeLine
                 {| Protocol := lit "http"; UniqueID := Host browsing;
                    FullId := Host browsing; RawRequest := requestLine browsing;
                    RawResponse := body (bannerPage capturing);
                    RemoteAddress := peer browsing; Timestamp := 0 |}
               = inl (lit "www.example.com GET /")) by reflexivity.
  assert (H9 : @zlibWrite storedZlib (lit "www.example.com GET /")
               = inl (storedWrite (lit "www.example.com GET /"))) by reflexivity.
  exact (conj H1 (conj H2 (conj H3 (conj H4 (conj H5 (conj H6
    (@root_capture_round_trip storedZlib sameText requestLine body peer 0 0 encodeLine
                              capturing noEncode pairDecode storedZlib_laws
                              browsing catching (bannerPage capturing) bucketRecord
                              _ _ H1 H2 H3 H4 H5 H6 H7 H8 H9))))))).
Defined.

End RootFacts.
